(** * Crash hotspot detection: DBSCAN page

    A shallow embedding of [dbscan_page.py]: the clustering step
    [apply_dbscan_clustering], the two group-by aggregations and the
    top-N selections of [render_map_and_metrics_with_dbscan], and the page
    driver [render_dbscan_page].

    Conventions.
    - A pandas DataFrame is a mutable object: frames live in a store
      ([heap]) and are passed by reference ([loc]).
    - Coordinates are float64 values, held as the rationals ([Q]) that they
      denote; a missing value (NaN) is [None].
    - Fatality counts are an int64 column, held as integers ([Z]); the sums
      that pandas takes of them are int64 too and wrap around ([wrap64]).
    - The calls into pandas ([groupby], [nlargest], [sort_values], column
      assignment) are modelled by their documented behaviour.  Two library
      computations are parameters of the development: the call into
      scikit-learn ([DBSCAN.fit_predict]), instantiated by
      [Sklearn.fit_predict], and the float64 [mean] of pandas, instantiated
      for the group-by by [Pandas.group_mean]. *)

From Stdlib Require Import ZArith QArith List Permutation Sorted Lia.
From Stdlib Require Floats.
From stdpp Require Import base list gmap strings pretty.

Open Scope Z_scope.

(** ** Zone classifier (nested in [apply_dbscan_clustering]) *)

Definition categorize_zone (fatalities : Z) : string * string :=
  if 100 <=? fatalities then ("Danger", "red")
  else if (50 <=? fatalities) && (fatalities <? 100) then ("Mild", "yellow")
  else ("Low Danger", "green").

(** ** Data model *)

(** One crash record of the input table; [None] is a missing value. *)
Record Crash := {
  LATITUDE : option Q;
  LONGITUD : option Q;
  FATALS : Z }.

(** A DataFrame: the input columns, row by row, and the columns that
    [apply_dbscan_clustering] attaches, each present or absent as a whole. *)
Record DataFrame := {
  crashes : list Crash;
  col_cluster : option (list Z);
  col_fatalities : option (list Z);
  col_zone_label : option (list string);
  col_zone_color : option (list string) }.

Definition raw_frame (rows : list Crash) : DataFrame :=
  {| crashes := rows; col_cluster := None; col_fatalities := None;
     col_zone_label := None; col_zone_color := None |}.

Definition with_cluster (values : list Z) (f : DataFrame) : DataFrame :=
  {| crashes := crashes f; col_cluster := Some values;
     col_fatalities := col_fatalities f;
     col_zone_label := col_zone_label f; col_zone_color := col_zone_color f |}.

Definition with_fatalities (values : list Z) (f : DataFrame) : DataFrame :=
  {| crashes := crashes f; col_cluster := col_cluster f;
     col_fatalities := Some values;
     col_zone_label := col_zone_label f; col_zone_color := col_zone_color f |}.

Definition with_zone_label (values : list string) (f : DataFrame) : DataFrame :=
  {| crashes := crashes f; col_cluster := col_cluster f;
     col_fatalities := col_fatalities f;
     col_zone_label := Some values; col_zone_color := col_zone_color f |}.

Definition with_zone_color (values : list string) (f : DataFrame) : DataFrame :=
  {| crashes := crashes f; col_cluster := col_cluster f;
     col_fatalities := col_fatalities f;
     col_zone_label := col_zone_label f; col_zone_color := Some values |}.

(** Python exceptions that the modelled code can raise. *)
Inductive exn :=
  | ValueError_length (values index : nat)  (* column assignment of the wrong length *)
  | ValueError_unpack                       (* not enough values to unpack *)
  | InvalidParameterError                   (* scikit-learn parameter validation *)
  | KeyError (column : string)
  | InvalidReference.

Inductive result (A : Type) :=
  | Ok (a : A)
  | Raise (e : exn).
Arguments Ok {A} a.
Arguments Raise {A} e.

(** ** pandas: group-by *)

Section groupby.
Context {A : Type}.

(** A group is never empty: it is created with its first row. *)
Record group := { g_key : Z; g_first : A; g_rest : list A }.

Definition g_members (g : group) : list A := g_first g :: g_rest g.

Fixpoint group_insert (k : Z) (x : A) (gs : list group) : list group :=
  match gs with
  | [] => [ {| g_key := k; g_first := x; g_rest := [] |} ]
  | g :: gs' =>
      if k <? g_key g then {| g_key := k; g_first := x; g_rest := [] |} :: gs
      else if k =? g_key g then
        {| g_key := k; g_first := x; g_rest := g_members g |} :: gs'
      else g :: group_insert k x gs'
  end.

(** [df.groupby(key)]: groups in ascending key order, rows of a group in
    table order. *)
Definition groupby (key : A -> Z) (rows : list A) : list group :=
  foldr (fun r gs => group_insert (key r) r gs) [] rows.

Definition find_group (k : Z) (gs : list group) : option group :=
  List.find (fun g => g_key g =? k) gs.
End groupby.
Arguments group A : clear implicits.

(** ** pandas: sums of an int64 column *)

(** The value that a 64-bit signed integer holds for [z]. *)
Definition wrap64 (z : Z) : Z := (z + 2 ^ 63) mod 2 ^ 64 - 2 ^ 63.

(** [Series.sum] and the group-by ['sum'] on an int64 column: the running
    total is an int64, every addition wraps around. *)
Definition int64_sum (l : list Z) : Z :=
  foldl (fun total x => wrap64 (total + x)) 0 l.

(** [df.groupby('cluster')[col].transform('sum')]: every row receives the sum
    of [col] over its own group. *)
Definition transform_sum (cluster values : list Z) : list Z :=
  let gs := groupby fst (zip cluster values) in
  (fun c => match find_group c gs with
            | Some g => int64_sum (snd <$> g_members g)
            | None => 0
            end) <$> cluster.

(** [df[["LATITUDE", "LONGITUD"]].dropna().values] *)
Definition dropna (rows : list Crash) : list (Q * Q) :=
  omap (fun r => match LATITUDE r, LONGITUD r with
                 | Some la, Some lo => Some (la, lo)
                 | _, _ => None
                 end) rows.

(** ** The store and the effects of the page *)

(** What the page shows.  Only the calls that carry data are recorded;
    static headings are left out. *)
Record MapCluster := {
  mc_cluster : Z;
  mc_fatalities : Z;
  mc_zone_label : string;
  mc_zone_color : string;
  mc_lat : option Q;
  mc_lon : option Q }.

Record MetricCluster := {
  mt_cluster : Z;
  mt_crashes : nat;
  mt_fatalities : Z;
  mt_zone_label : string }.

(** The figure of column 1: the markers of the top clusters with their
    display names, and the trace of outliers when it is added. *)
Record Figure := {
  fig_clusters : list (string * MapCluster);
  fig_outliers : option (list (option Q * option Q)) }.

Inductive ui :=
  | st_error (msg : string)
  | st_info (msg : string)
  | st_plotly_chart (fig : Figure)
  | st_write (msg : string)
  | st_table (rows : list (string * MetricCluster)).

Definition loc : Type := nat.

Record world := {
  heap : gmap nat DataFrame;   (* the DataFrame objects, by reference *)
  screen : list ui }.          (* what has been shown, oldest first *)

(** State and exceptions. *)
Definition M (A : Type) : Type := world -> result A * world.

#[global] Instance M_ret : MRet M := fun A a w => (Ok a, w).
#[global] Instance M_bind : MBind M := fun A B f m w =>
  match m w with
  | (Ok a, w') => f a w'
  | (Raise e, w') => (Raise e, w')
  end.

Definition raise {A} (e : exn) : M A := fun w => (Raise e, w).

Definition lift {A} (r : result A) : M A := fun w => (r, w).

Definition read (df : loc) : M DataFrame := fun w =>
  match heap w !! df with
  | Some f => (Ok f, w)
  | None => (Raise InvalidReference, w)
  end.

Definition write (df : loc) (f : DataFrame) : M unit := fun w =>
  (Ok tt, {| heap := <[df := f]> (heap w); screen := screen w |}).

Definition show (e : ui) : M unit := fun w =>
  (Ok tt, {| heap := heap w; screen := screen w ++ [e] |}).

(** [df[name] = values]: the values must be as many as the rows. *)
Definition setitem {A} (df : loc) (setter : list A -> DataFrame -> DataFrame)
    (values : list A) : M unit :=
  f ← read df;
  if (length values =? length (crashes f))%nat then write df (setter values f)
  else raise (ValueError_length (length values) (length (crashes f))).

Definition getitem {A} (df : loc) (column : string)
    (getter : DataFrame -> option (list A)) : M (list A) :=
  f ← read df;
  match getter f with
  | Some values => mret values
  | None => raise (KeyError column)
  end.

(** ** The clustering step *)

Section Clustering.

(** [DBSCAN(eps, min_samples, metric='euclidean').fit_predict(coordinates)]:
    the call into scikit-learn. *)
Variable fit_predict : Q -> Z -> list (Q * Q) -> result (list Z).

Definition apply_dbscan_clustering (df : loc) (eps : Q) (min_samples : Z) : M loc :=
  f ← read df;
  let coordinates := dropna (crashes f) in
  if (length coordinates =? 0)%nat then
    show (st_error "No valid data points for clustering (LATITUDE and LONGITUD contain NaN).");;
    mret df
  else
    labels ← lift (fit_predict eps min_samples coordinates);
    setitem df with_cluster labels;;
    f ← read df;
    match col_cluster f with
    | None =>
        show (st_error "No clusters found after DBSCAN.");;
        mret df
    | Some cluster =>
        setitem df with_fatalities (transform_sum cluster (FATALS <$> crashes f));;
        fatalities ← getitem df "fatalities" col_fatalities;
        match categorize_zone <$> fatalities with
        | [] => raise ValueError_unpack
        | zones =>
            setitem df with_zone_label (fst <$> zones);;
            setitem df with_zone_color (snd <$> zones);;
            mret df
        end
    end.

End Clustering.

(** ** scikit-learn: DBSCAN

    A model of [sklearn.cluster.DBSCAN.fit_predict] with the euclidean
    metric: parameter validation, the radius neighbourhoods, the core
    samples, and the depth-first labelling of [dbscan_inner].  It is used
    to run the page on concrete tables; the theorems about the page hold for
    any [fit_predict]. *)

Module Sklearn.

Definition sqdist (p q : Q * Q) : Q :=
  ((fst p - fst q) * (fst p - fst q) + (snd p - snd q) * (snd p - snd q))%Q.

(** Distance at most [eps], compared on the squares ([eps] is positive).
    The comparison is exact, where the library compares float64 distances:
    the two can differ only for a point whose distance is within a rounding
    error of [eps], and the sample tables have none. *)
Definition within (eps : Q) (p q : Q * Q) : bool :=
  Qle_bool (sqdist p q) (eps * eps)%Q.

(** The positions of the points within [eps] of [p], ascending; [p] itself
    is one of them. *)
Definition neighborhood (eps : Q) (X : list (Q * Q)) (p : Q * Q) : list nat :=
  fst <$> List.filter (fun iq => within eps p (snd iq)) (imap pair X).

Definition unlabelled (labels : list Z) (v : nat) : bool :=
  match labels !! v with
  | Some l => l =? -1
  | None => false
  end.

(** The [while True] loop of [dbscan_inner]: [stack] has its top first.
    [fuel] bounds the number of turns; [dbscan_inner] gives enough of it
    ([SklearnFacts.expand_enough_fuel]). *)
Fixpoint expand (fuel : nat) (neighborhoods : list (list nat)) (is_core : list bool)
    (label_num : Z) (i : nat) (stack : list nat) (labels : list Z) : list Z :=
  match fuel with
  | O => labels
  | S fuel' =>
      let '(labels1, stack1) :=
        if unlabelled labels i then
          let labels1 := <[i := label_num]> labels in
          (labels1,
           if default false (is_core !! i)
           then rev (List.filter (unlabelled labels1) (default [] (neighborhoods !! i))) ++ stack
           else stack)
        else (labels, stack) in
      match stack1 with
      | [] => labels1
      | j :: stack2 => expand fuel' neighborhoods is_core label_num j stack2 labels1
      end
  end.

Definition dbscan_inner (neighborhoods : list (list nat)) (is_core : list bool)
    (n : nat) : list Z :=
  fst (foldl (fun (st : list Z * Z) (i : nat) =>
                let '(labels, label_num) := st in
                if negb (unlabelled labels i) || negb (default false (is_core !! i))
                then (labels, label_num)
                else (expand (n * (n + 1) + 1) neighborhoods is_core label_num i [] labels,
                      label_num + 1))
             (replicate n (-1), 0) (seq 0 n)).

Definition fit_predict (eps : Q) (min_samples : Z) (X : list (Q * Q)) : result (list Z) :=
  if Qle_bool eps 0 || (min_samples <? 1) then Raise InvalidParameterError
  else
    let neighborhoods := neighborhood eps X <$> X in
    let is_core := (fun nb => min_samples <=? Z.of_nat (length nb)) <$> neighborhoods in
    Ok (dbscan_inner neighborhoods is_core (length X)).

End Sklearn.

(** ** Rows of a clustered frame *)

Record ClusteredCrash := {
  cc_crash : Crash;
  cc_cluster : Z;
  cc_fatalities : Z;
  cc_zone_label : string;
  cc_zone_color : string }.

Fixpoint clustered_rows (rs : list Crash) (cl fa : list Z) (zl zc : list string)
    : list ClusteredCrash :=
  match rs, cl, fa, zl, zc with
  | r :: rs', c :: cl', f :: fa', l :: zl', k :: zc' =>
      {| cc_crash := r; cc_cluster := c; cc_fatalities := f;
         cc_zone_label := l; cc_zone_color := k |}
      :: clustered_rows rs' cl' fa' zl' zc'
  | _, _, _, _, _ => []
  end.

(** The rows of a frame with all four attached columns; a missing column is
    a [KeyError] when it is read. *)
Definition rows_of (f : DataFrame) : result (list ClusteredCrash) :=
  match col_cluster f with
  | None => Raise (KeyError "cluster")
  | Some cl =>
    match col_fatalities f with
    | None => Raise (KeyError "fatalities")
    | Some fa =>
      match col_zone_label f with
      | None => Raise (KeyError "zone_label")
      | Some zl =>
        match col_zone_color f with
        | None => Raise (KeyError "zone_color")
        | Some zc => Ok (clustered_rows (crashes f) cl fa zl zc)
        end
      end
    end
  end.

(** [df[mask]]: the rows whose mask entry is true, as a new frame. *)
Definition mask_rows {A} (mask : list bool) (col : list A) : list A :=
  snd <$> List.filter fst (zip mask col).

Definition is_noise (c : Z) : bool := c =? -1.

(** [clustered_df[clustered_df['cluster'] != -1]] *)
Definition drop_noise (f : DataFrame) : result DataFrame :=
  match col_cluster f with
  | None => Raise (KeyError "cluster")
  | Some cl =>
      let mask := (fun c => negb (is_noise c)) <$> cl in
      Ok {| crashes := mask_rows mask (crashes f);
            col_cluster := Some (mask_rows mask cl);
            col_fatalities := mask_rows mask <$> col_fatalities f;
            col_zone_label := mask_rows mask <$> col_zone_label f;
            col_zone_color := mask_rows mask <$> col_zone_color f |}
  end.

(** ** pandas: aggregations, sorting, selection *)

(** [Series.mean] and the group-by ['mean'] on a float64 column: a float64
    computation of pandas, which skips the missing values; with none left
    the mean is missing.  The page is modelled for any such function. *)
Class FloatMean := mean : list (option Q) -> option Q.

(** The group-by ['mean'] as pandas computes it ([group_mean]): the float64
    values are added up in table order with Kahan's compensated summation,
    and the total is divided by their number. *)
Module Pandas.

(** The float64 nearest to an integer. *)
Definition float_of_Z (z : Z) : PrimFloat.float :=
  FloatOps.SF2Prim (SpecFloat.binary_normalize FloatOps.prec FloatOps.emax z 0 false).

(** The float64 that a column holds for [q]: the nearest one, for a
    numerator and a denominator below [2 ^ 53]. *)
Definition float_of_Q (q : Q) : PrimFloat.float :=
  PrimFloat.div (float_of_Z (Qnum q)) (float_of_Z (Zpos (Qden q))).

(** The rational that a finite float64 denotes. *)
Definition Q_of_float (x : PrimFloat.float) : option Q :=
  match FloatOps.Prim2SF x with
  | SpecFloat.S754_zero _ => Some 0%Q
  | SpecFloat.S754_finite s m e =>
      let n := if s then Zneg m else Zpos m in
      Some match e with
           | Z0 => inject_Z n
           | Zpos k => inject_Z (n * 2 ^ Zpos k)
           | Zneg k => n # (2 ^ k)
           end
  | _ => None
  end.

(** One turn of the summation: the running total and the compensation. *)
Definition kahan_add (st : PrimFloat.float * PrimFloat.float) (val : PrimFloat.float)
    : PrimFloat.float * PrimFloat.float :=
  let '(sumx, compensation) := st in
  let y := PrimFloat.sub val compensation in
  let t := PrimFloat.add sumx y in
  let c := PrimFloat.sub (PrimFloat.sub t sumx) y in
  (t, if PrimFloat.eqb c c then c else PrimFloat.zero).

Definition group_mean (values : list (option Q)) : option Q :=
  match omap id values with
  | [] => None
  | vs =>
      let sumx :=
        fst (foldl kahan_add (PrimFloat.zero, PrimFloat.zero) (float_of_Q <$> vs)) in
      Q_of_float (PrimFloat.div sumx (float_of_Z (Z.of_nat (length vs))))
  end.

End Pandas.

(** Where the mean is not a parameter, the page runs with the group mean of
    pandas. *)
#[global] Instance pandas_group_mean : FloatMean := Pandas.group_mean.

(** Stable insertion, ascending: [x] comes from before the rows of [l]. *)
Fixpoint insert_asc {A} (key : A -> Z) (x : A) (l : list A) : list A :=
  match l with
  | [] => [x]
  | y :: l' => if key x <=? key y then x :: l else y :: insert_asc key x l'
  end.

(** [df.sort_values(by=key)] *)
Definition sort_values {A} (key : A -> Z) (l : list A) : list A :=
  foldr (insert_asc key) [] l.

(** Stable insertion, descending. *)
Fixpoint insert_desc {A} (key : A -> Z) (x : A) (l : list A) : list A :=
  match l with
  | [] => [x]
  | y :: l' => if key y <=? key x then x :: l else y :: insert_desc key x l'
  end.

(** [df.nlargest(n, key)] with [keep='first']: the first [n] rows in
    descending order of [key], rows of equal key in table order. *)
Definition nlargest {A} (n : nat) (key : A -> Z) (l : list A) : list A :=
  take n (foldr (insert_desc key) [] l).

(** ['Cluster ' + str(i+1) for i in range(len(top_clusters))] *)
Definition cluster_names {A} (top_clusters : list A) : list (string * A) :=
  imap (fun i c => ("Cluster " +:+ pretty (S i), c)) top_clusters.

(** ** Aggregation and ranking of [render_map_and_metrics_with_dbscan] *)

Section Aggregation.
Context {group_mean : FloatMean}.

(** Column 1: [df.groupby('cluster').agg(fatalities=('fatalities','first'),
    zone_label=('zone_label','first'), zone_color=('zone_color','first'),
    lat=('LATITUDE','mean'), lon=('LONGITUD','mean')).reset_index()] *)
Definition cluster_summary_map (rows : list ClusteredCrash) : list MapCluster :=
  (fun g =>
     {| mc_cluster := g_key g;
        mc_fatalities := cc_fatalities (g_first g);
        mc_zone_label := cc_zone_label (g_first g);
        mc_zone_color := cc_zone_color (g_first g);
        mc_lat := mean ((fun r => LATITUDE (cc_crash r)) <$> g_members g);
        mc_lon := mean ((fun r => LONGITUD (cc_crash r)) <$> g_members g) |})
  <$> groupby cc_cluster rows.

(** Column 2: [df.groupby('cluster').agg(crashes=('LATITUDE','size'),
    fatalities=('FATALS','sum'), zone_label=('zone_label','first'))
    .reset_index()] *)
Definition cluster_summary_metrics (rows : list ClusteredCrash) : list MetricCluster :=
  (fun g =>
     {| mt_cluster := g_key g;
        mt_crashes := length (g_members g);
        mt_fatalities := int64_sum ((fun r => FATALS (cc_crash r)) <$> g_members g);
        mt_zone_label := cc_zone_label (g_first g) |})
  <$> groupby cc_cluster rows.

(** The entries of [filters_dict] that the page reads. *)
Record Filters := { county : string; city : string }.

Definition top_n_of (filters_dict : Filters) : nat :=
  if negb (String.eqb (county filters_dict) "All counties") then 5
  else if negb (String.eqb (city filters_dict) "All cities") then 3
  else 10.

(** The markers of the map: sorted by cluster id, then the 10 largest by
    [fatalities]. *)
Definition top_clusters_map (rows : list ClusteredCrash) : list MapCluster :=
  nlargest 10 mc_fatalities (sort_values mc_cluster (cluster_summary_map rows)).

(** The rows of the metrics table: the [top_n] largest by [crashes]. *)
Definition top_clusters_metrics (top_n : nat) (rows : list ClusteredCrash)
    : list MetricCluster :=
  nlargest top_n (fun s => Z.of_nat (mt_crashes s)) (cluster_summary_metrics rows).

Definition color_zone_label (zone : string) : string :=
  if String.eqb zone "Danger" then "<span style='color:red'>" +:+ zone +:+ "</span>"
  else if String.eqb zone "Mild" then "<span style='color:yellow'>" +:+ zone +:+ "</span>"
  else "<span style='color:green'>" +:+ zone +:+ "</span>".

Definition with_colored_label (s : MetricCluster) : MetricCluster :=
  {| mt_cluster := mt_cluster s; mt_crashes := mt_crashes s;
     mt_fatalities := mt_fatalities s;
     mt_zone_label := color_zone_label (mt_zone_label s) |}.

(** [df[df['cluster'] == -1]], as the trace of outliers. *)
Definition outliers_of (rows : list ClusteredCrash) : list (option Q * option Q) :=
  (fun r => (LATITUDE (cc_crash r), LONGITUD (cc_crash r)))
  <$> List.filter (fun r => is_noise (cc_cluster r)) rows.

(** The figure of column 1. *)
Definition build_figure (rows : list ClusteredCrash) (show_outliers : bool) : Figure :=
  let top_clusters := cluster_names (top_clusters_map rows) in
  let outliers :=
    if show_outliers then
      match outliers_of rows with
      | [] => None
      | o => Some o
      end
    else None in
  {| fig_clusters := top_clusters; fig_outliers := outliers |}.

(** The table of column 2. *)
Definition build_table (top_n : nat) (rows : list ClusteredCrash)
    : list (string * MetricCluster) :=
  let top_clusters := cluster_names (top_clusters_metrics top_n rows) in
  prod_map id with_colored_label <$> top_clusters.

Definition render_map_and_metrics_with_dbscan (df : loc) (filters_dict : Filters)
    (show_outliers : bool) : M unit :=
  f ← read df;
  if (length (crashes f) =? 0)%nat then
    show (st_info "No crashes match the current filters.")
  else
    rows ← lift (rows_of f);
    show (st_plotly_chart (build_figure rows show_outliers));;
    let top_n := top_n_of filters_dict in
    show (st_write ("Top " +:+ pretty top_n +:+ " Crash Hotspots:"));;
    show (st_table (build_table top_n rows)).

End Aggregation.

(** ** The page *)

(** What [dbscan_filters] returns: the values of the sidebar controls.  The
    sliders bound [eps] to 0.02..0.5 and [min_samples] to 1..20. *)
Record DbscanFilters := {
  eps : Q;
  min_samples : Z;
  show_outliers : bool }.

Definition in_slider_range (c : DbscanFilters) : Prop :=
  (2 # 100 <= eps c)%Q /\ (eps c <= 5 # 10)%Q /\ 1 <= min_samples c <= 20.

Definition alloc (f : DataFrame) : M loc := fun w =>
  let l := fresh (dom (heap w)) in
  (Ok l, {| heap := <[l := f]> (heap w); screen := screen w |}).

Section Page.

Variable fit_predict : Q -> Z -> list (Q * Q) -> result (list Z).
Context {group_mean : FloatMean}.

(** [render_dbscan_page], from [filtered] on: the table after the sidebar
    filters, the filters' dictionary and the values of the DBSCAN controls
    are the inputs. *)
Definition render_dbscan_page (filtered : loc) (filters_dict : Filters)
    (controls : DbscanFilters) : M unit :=
  f ← read filtered;
  if (length (crashes f) =? 0)%nat then
    show (st_error "No data points match the current filters. Please adjust the filters and try again.")
  else
    clustered_df ← apply_dbscan_clustering fit_predict filtered (eps controls) (min_samples controls);
    f ← read clustered_df;
    match col_cluster f with
    | None => show (st_error "Clustering failed. No valid clusters found.")
    | Some _ =>
        clustered_df ←
          (if negb (show_outliers controls)
           then f' ← lift (drop_noise f); alloc f'
           else mret clustered_df);
        render_map_and_metrics_with_dbscan clustered_df filters_dict (show_outliers controls)
    end.

End Page.

(** ** Vocabulary of the statements *)

(** The groups of a table come in strictly ascending key order. *)
Definition keys_sorted {A} (gs : list (group A)) : Prop :=
  StronglySorted Z.lt (g_key <$> gs).

(** The entries of [col] on the rows that [cluster] assigns the id [c]. *)
Definition members_of {A} (c : Z) (cluster : list Z) (col : list A) : list A :=
  snd <$> List.filter (fun p => fst p =? c) (zip cluster col).

(** The order of a ranking: by [key] descending, rows of equal key by [id]
    ascending. *)
Definition ranks_before {A} (key id : A -> Z) (a b : A) : Prop :=
  key b < key a \/ (key a = key b /\ id a < id b).

Definition ids_ascending {A} (id : A -> Z) (l : list A) : Prop :=
  StronglySorted (fun a b => id a < id b) l.

(** [ranked] is the ranking of [summaries] cut to [n]: as many of them as
    there are, up to [n], in ranking order, every summary left out comes
    after every one selected, and none is left out when there are no more
    than [n]. *)
Definition ranking_of {A} (n : nat) (key id : A -> Z) (summaries ranked : list A)
    : Prop :=
  length ranked = Nat.min n (length summaries) /\
  StronglySorted (ranks_before key id) ranked /\
  (exists rest, summaries ≡ₚ ranked ++ rest /\
     forall a b, a ∈ ranked -> b ∈ rest -> ranks_before key id a b) /\
  ((length summaries <= n)%nat -> ranked ≡ₚ summaries).

(** The frame that a successful clustering step leaves for the table [f]
    with the labels [labels]. *)
Definition clustered (f : DataFrame) (labels : list Z) : DataFrame :=
  let fatalities := transform_sum labels (FATALS <$> crashes f) in
  {| crashes := crashes f;
     col_cluster := Some labels;
     col_fatalities := Some fatalities;
     col_zone_label := Some (fst <$> (categorize_zone <$> fatalities));
     col_zone_color := Some (snd <$> (categorize_zone <$> fatalities)) |}.

Definition shown (es : list ui) (w : world) : world :=
  {| heap := heap w; screen := screen w ++ es |}.

Definition stored (df : loc) (f : DataFrame) (w : world) : world :=
  {| heap := <[df := f]> (heap w); screen := screen w |}.

Definition no_valid_points : ui :=
  st_error "No valid data points for clustering (LATITUDE and LONGITUD contain NaN).".

Definition clustering_failed : ui :=
  st_error "Clustering failed. No valid clusters found.".

(** The invariant of the tables of the page: a table carries a [cluster]
    column only if all its records have coordinates. *)
Definition labelled_only_if_located (f : DataFrame) : Prop :=
  col_cluster f = None \/ length (dropna (crashes f)) = length (crashes f).

(** The exact sums and the exact mean, as arithmetic has them. *)
Definition sum_Z (l : list Z) : Z := foldr Z.add 0 l.



(** The integers that an int64 holds as they are. *)
Definition in_int64 (z : Z) : Prop := - 2 ^ 63 <= z < 2 ^ 63.

(** A row as the clustering step annotates it, [total c] being the sum of
    the fatality counts over the rows with the id [c]. *)
Definition annotate (total : Z -> Z) (r : Crash) (c : Z) : ClusteredCrash :=
  {| cc_crash := r; cc_cluster := c; cc_fatalities := total c;
     cc_zone_label := fst (categorize_zone (total c));
     cc_zone_color := snd (categorize_zone (total c)) |}.

(** The sum of the fatality counts of the records that [labels] assigns
    [c], as an int64 holds it. *)
Definition fatality_sum (c : Z) (labels : list Z) (table : list Crash) : Z :=
  wrap64 (sum_Z (FATALS <$> members_of c labels table)).

Definition keeps_noise_out (r : ClusteredCrash) : bool := negb (is_noise (cc_cluster r)).

(** What the page shows for the rows handed to the rendering. *)
Definition page_output {group_mean : FloatMean} (filters_dict : Filters)
    (show_outliers : bool) (rows : list ClusteredCrash) : list ui :=
  [ st_plotly_chart (build_figure rows show_outliers);
    st_write ("Top " +:+ pretty (top_n_of filters_dict) +:+ " Crash Hotspots:");
    st_table (build_table (top_n_of filters_dict) rows) ].

Definition no_crashes : ui := st_info "No crashes match the current filters.".

Definition no_data_points : ui :=
  st_error "No data points match the current filters. Please adjust the filters and try again.".

(** The cluster ids of the markers of each figure shown, and of the rows of
    each table shown. *)
Definition shown_map_ids (w : world) : list (list Z) :=
  omap (fun e => match e with
                 | st_plotly_chart fig => Some ((fun p => mc_cluster (snd p)) <$> fig_clusters fig)
                 | _ => None
                 end) (screen w).


Definition shown_table_ids (w : world) : list (list Z) :=
  omap (fun e => match e with
                 | st_table rows => Some ((fun p => mt_cluster (snd p)) <$> rows)
                 | _ => None
                 end) (screen w).

(** ** Sample inputs *)

Definition crash (lat lon : Q) (fatals : Z) : Crash :=
  {| LATITUDE := Some lat; LONGITUD := Some lon; FATALS := fatals |}.

(** Two crashes close together and two isolated ones. *)
Definition sample_table : list Crash :=
  [ crash 0 0 60; crash (1 # 20) 0 50; crash 5 5 2; crash 7 5 3 ].

(** One located crash and one without a latitude. *)
Definition partly_located_table : list Crash :=
  [ crash 39 (-105) 1;
    {| LATITUDE := None; LONGITUD := Some (-104)%Q; FATALS := 1 |} ].

(** No crash has coordinates. *)
Definition unlocated_table : list Crash :=
  [ {| LATITUDE := None; LONGITUD := None; FATALS := 1 |} ].

(** Four crashes far from each other. *)
Definition scattered_table : list Crash :=
  [ crash 1 1 1; crash 2 2 1; crash 3 3 1; crash 4 4 1 ].

Definition world_of (table : list Crash) : world :=
  {| heap := {[ 0%nat := raw_frame table ]}; screen := [] |}.

Definition no_filter : Filters := {| county := "All counties"; city := "All cities" |}.

Definition city_filter : Filters := {| county := "All counties"; city := "DENVER" |}.

Definition sample_controls (show_outliers : bool) : DbscanFilters :=
  {| eps := 1 # 10; min_samples := 2; show_outliers := show_outliers |}.

(** The sample table as the step labels it with [eps = 0.1] and
    [min_samples = 2]. *)
Definition sample_labelled : DataFrame :=
  clustered (raw_frame sample_table) [0; 0; -1; -1].


(** The number of points that the labelling has not reached yet. *)
Definition unlabelled_count (labels : list Z) : nat :=
  length (List.filter (fun l => l =? -1) labels).

From Stdlib Require Import Ascii Lqa.

(** ** More vocabulary: tiers, aligned columns *)

(** The order of the tiers: "Low Danger" below "Mild" below "Danger". *)
Definition tier_rank (label : string) : nat :=
  if String.eqb label "Danger" then 2
  else if String.eqb label "Mild" then 1
  else 0.

(** Every attached column of a frame has one entry per row, as pandas
    guarantees for the columns of a DataFrame. *)
Definition columns_aligned (f : DataFrame) : Prop :=
  (forall cl, col_cluster f = Some cl -> length cl = length (crashes f)) /\
  (forall fa, col_fatalities f = Some fa -> length fa = length (crashes f)) /\
  (forall zl, col_zone_label f = Some zl -> length zl = length (crashes f)) /\
  (forall zc, col_zone_color f = Some zc -> length zc = length (crashes f)).

(** A table that shows no valid point carries no [cluster] column yet.
    Raw tables are such, and so are the tables that the page has labelled,
    which do show valid points. *)
Definition unlabelled_if_unlocated (f : DataFrame) : Prop :=
  dropna (crashes f) = [] -> crashes f <> [] -> col_cluster f = None.

(** The outcome of [render_dbscan_page] and what it shows, computed from the
    input columns of the table, the filters and the controls. *)
Definition page_shows {group_mean : FloatMean}
    (fit_predict : Q -> Z -> list (Q * Q) -> result (list Z)) (f : DataFrame) (filters_dict : Filters) (controls : DbscanFilters)
    : result unit * list ui :=
  match crashes f with
  | [] => (Ok tt, [no_data_points])
  | _ =>
      match dropna (crashes f) with
      | [] => (Ok tt, [no_valid_points; clustering_failed])
      | coordinates =>
          match fit_predict (eps controls) (min_samples controls) coordinates with
          | Raise e => (Raise e, [])
          | Ok labels =>
              if (length labels =? length (crashes f))%nat then
                let rows :=
                  zip_with (annotate (fun c => fatality_sum c labels (crashes f)))
                    (crashes f) labels in
                (Ok tt,
                 if show_outliers controls then page_output filters_dict true rows
                 else match List.filter keeps_noise_out rows with
                      | [] => [no_crashes]
                      | rows' => page_output filters_dict false rows'
                      end)
              else (Raise (ValueError_length (length labels) (length (crashes f))), [])
          end
      end
  end.

(** ** The heat-map page ([hotspot_page.py], [map_layers.py]) *)

Module Heatmap.

(** A row of the table of the heat-map page: the columns that the page
    reads. *)
Record CrashRow := {
  position : Crash;
  YEAR : Z;
  COUNTYNAME : string;
  CITYNAME : string;
  WEATHERNAME : string;
  ROUTENAME : string }.

(** The table, with the column that [build_hotspot_figure] attaches. *)
Record HeatFrame := {
  rows : list CrashRow;
  col_FATALS_CLIPPED : option (list Z) }.

Definition lat_of (r : CrashRow) : option Q := LATITUDE (position r).
Definition lon_of (r : CrashRow) : option Q := LONGITUD (position r).
Definition fatals_of (r : CrashRow) : Z := FATALS (position r).

(** [Series.min] and [Series.max]: missing on an empty column. *)
Definition series_min (l : list Z) : option Z :=
  match l with
  | [] => None
  | x :: l' => Some (foldr Z.min x l')
  end.

Definition series_max (l : list Z) : option Z :=
  match l with
  | [] => None
  | x :: l' => Some (foldr Z.max x l')
  end.

(** [Series.clip(lower, upper)]: a missing bound does not clip. *)
Definition clip (lower upper : option Z) (x : Z) : Z :=
  let y := match lower with
           | Some lo => if lo <=? x then x else lo
           | None => x
           end in
  match upper with
  | Some hi => if x <=? hi then y else hi
  | None => y
  end.

Record HeatFigure := {
  center : option Q * option Q;
  zoom : Q;
  density : list (option Q * option Q * Z);   (* lat, lon, z *)
  range_color : option Z * option Z;
  crashes_trace : option (list (option Q * option Q * string)) }.

Definition COLORADO_CENTER : Q * Q := (39, - (1055 # 10))%Q.

Definition hovertext (r : CrashRow) : string :=
  "Year: " +:+ pretty (YEAR r) +:+ " | FATALS: " +:+ pretty (fatals_of r) +:+ "<br>"
  +:+ COUNTYNAME r +:+ ", " +:+ CITYNAME r +:+ "<br>"
  +:+ "Weather: " +:+ WEATHERNAME r +:+ "<br>"
  +:+ "Road: " +:+ ROUTENAME r.

Section Figure.

(** [Series.mean] of a float64 column, as the installed pandas computes
    it. *)
Context {series_mean : FloatMean}.

(** [build_hotspot_figure(df, filters_dict, overlay)]: the figure, and the
    caller's table as the function leaves it. *)
Definition build_hotspot_figure (df : HeatFrame) (filters_dict : Filters)
    (overlay : bool) : HeatFigure * HeatFrame :=
  let '(lat, lon, zoom) :=
    if negb (String.eqb (city filters_dict) "All cities") then
      let focus := List.filter (fun r => String.eqb (CITYNAME r) (city filters_dict)) (rows df) in
      (mean (lat_of <$> focus), mean (lon_of <$> focus), (115 # 10)%Q)
    else if negb (String.eqb (county filters_dict) "All counties") then
      let focus := List.filter (fun r => String.eqb (COUNTYNAME r) (county filters_dict)) (rows df) in
      (mean (lat_of <$> focus), mean (lon_of <$> focus), (99 # 10)%Q)
    else (Some (fst COLORADO_CENTER), Some (snd COLORADO_CENTER), (67 # 10)%Q) in
  let global_min_fatal := series_min (fatals_of <$> rows df) in
  let global_max_fatal := series_max (fatals_of <$> rows df) in
  let clipped := clip global_min_fatal global_max_fatal <$> (fatals_of <$> rows df) in
  let df' := {| rows := rows df; col_FATALS_CLIPPED := Some clipped |} in
  let fig :=
    {| center := (lat, lon);
       zoom := zoom;
       density := zip_with (fun r z => (lat_of r, lon_of r, z)) (rows df') clipped;
       range_color := (global_min_fatal, global_max_fatal);
       crashes_trace :=
         if overlay
         then Some ((fun r => (lat_of r, lon_of r, hovertext r)) <$> rows df')
         else None |} in
  (fig, df').

(** [f"{n:,}"]: the decimal numeral with a comma before every group of three
    digits, counted from the right. *)
Fixpoint group_thousands (digits_rev : list Ascii.ascii) : list Ascii.ascii :=
  match digits_rev with
  | a :: b :: c :: ((_ :: _) as rest) => a :: b :: c :: ","%char :: group_thousands rest
  | _ => digits_rev
  end.

Definition format_digits (s : string) : string :=
  String.string_of_list_ascii (rev (group_thousands (rev (String.list_ascii_of_string s)))).

Definition format_thousands (n : Z) : string :=
  match n with
  | Z0 => "0"
  | Zpos p => format_digits (pretty p)
  | Zneg p => "-" +:+ format_digits (pretty p)
  end.

Inductive ui :=
  | st_info (msg : string)
  | st_plotly_chart (fig : HeatFigure)
  | st_metric (label value : string).

(** The entries of [filters_dict] that the page reads. *)
Record HeatFilters := {
  selection : Filters;
  overlay : bool }.

(** [render_map_and_metrics(df, filters_dict, col1, col2)]: what is shown,
    and the caller's table as the function leaves it. *)
Definition render_map_and_metrics (df : HeatFrame) (filters_dict : HeatFilters)
    : list ui * HeatFrame :=
  match rows df with
  | [] => ([st_info "No crashes match the current filters."], df)
  | _ =>
      let '(fig, df) :=
        build_hotspot_figure df (selection filters_dict) (overlay filters_dict) in
      let col1 := [st_plotly_chart fig] in
      let col2 :=
        match rows df with
        | r :: rs =>
            let fatalities :=
              match rows df with
              | [] => 0
              | _ => int64_sum (fatals_of <$> rows df)
              end in
            let y_min := foldr Z.min (YEAR r) (YEAR <$> rs) in
            let y_max := foldr Z.max (YEAR r) (YEAR <$> rs) in
            [ st_metric "Total Crashes" (format_thousands (Z.of_nat (length (rows df))));
              st_metric "Total Fatalities" (format_thousands fatalities);
              st_metric "Year Range" (pretty y_min +:+ "–" +:+ pretty y_max) ]
        | [] =>
            [ st_metric "Total Crashes" "—";
              st_metric "Total Fatalities" "—";
              st_metric "Year Range" "—" ]
        end in
      (col1 ++ col2, df)
  end.

End Figure.

(** The characters of a string that are not commas. *)
Definition strip_commas (s : string) : string :=
  String.string_of_list_ascii
    (List.filter (fun a => negb (Ascii.eqb a ","%char)) (String.list_ascii_of_string s)).

(** [text] is [digits] with a comma before every group of three digits,
    counted from the right: a first group of one to three digits, then
    groups of exactly three, each after a comma. *)
Inductive grouped_by_three : list Ascii.ascii -> list Ascii.ascii -> Prop :=
  | grouped_first digits :
      (1 <= length digits <= 3)%nat -> grouped_by_three digits digits
  | grouped_next digits text a b c :
      grouped_by_three digits text ->
      grouped_by_three (digits ++ [a; b; c]) (text ++ ","%char :: [a; b; c]).

(** [s] is the decimal numeral of [n] written with thousands separators: a
    minus sign when [n] is negative, then the digits of [|n|] grouped by
    three. *)
Definition thousands_separated (n : Z) (s : string) : Prop :=
  exists text,
    s = (if n <? 0 then "-" else "") +:+ String.string_of_list_ascii text /\
    grouped_by_three (String.list_ascii_of_string (pretty (Z.abs n))) text.

Definition sample_rows : list CrashRow :=
  [ {| position := crash 39 (-105) 1; YEAR := 2019; COUNTYNAME := "DENVER";
       CITYNAME := "DENVER"; WEATHERNAME := "Clear"; ROUTENAME := "Interstate" |};
    {| position := crash 40 (-104) 2; YEAR := 2015; COUNTYNAME := "WELD";
       CITYNAME := "GREELEY"; WEATHERNAME := "Rain"; ROUTENAME := "State Highway" |};
    {| position := crash (397 # 10) (-1049 # 10) 1; YEAR := 2023; COUNTYNAME := "DENVER";
       CITYNAME := "DENVER"; WEATHERNAME := "Snow"; ROUTENAME := "Local Street" |} ].

Definition sample_frame : HeatFrame :=
  {| rows := sample_rows; col_FATALS_CLIPPED := None |}.

End Heatmap.

(** The characters of a decimal numeral. *)
Definition numeral_chars : list ascii := String.list_ascii_of_string "0123456789-".

(** ** Facts about group-by *)

Section groupby_facts.
Context {A : Type} (key : A -> Z).
Implicit Types (gs : list (group A)) (rows : list A).

Lemma group_insert_keys_Forall (P : Z -> Prop) k x gs :
  P k -> Forall P (g_key <$> gs) -> Forall P (g_key <$> group_insert k x gs).
Proof.
  intros Hk. induction gs as [|g gs IH]; simpl; intros Hgs.
  - by repeat constructor.
  - inversion Hgs; subst.
    destruct (k <? g_key g); [by repeat constructor|].
    destruct (k =? g_key g); simpl; constructor; auto.
Qed.

Lemma group_insert_sorted k x gs :
  keys_sorted gs -> keys_sorted (group_insert k x gs).
Proof.
  unfold keys_sorted.
  induction gs as [|g gs IH]; simpl; intros Hs.
  - repeat constructor.
  - inversion Hs as [|? ? Hs' Hlt]; subst.
    destruct (k <? g_key g) eqn:E1.
    + simpl. constructor; [exact Hs|].
      constructor; [lia|]. eapply Forall_impl; [exact Hlt|]. simpl; lia.
    + destruct (k =? g_key g) eqn:E2; simpl.
      * constructor; [done|]. eapply Forall_impl; [exact Hlt|]. simpl; lia.
      * constructor; [by apply IH|].
        apply group_insert_keys_Forall; [lia|done].
Qed.

Lemma groupby_sorted rows : keys_sorted (groupby key rows).
Proof.
  induction rows as [|r rows IH]; simpl.
  - constructor.
  - by apply group_insert_sorted.
Qed.

Lemma find_group_above k gs :
  Forall (fun k' => k < k') (g_key <$> gs) -> find_group k gs = None.
Proof.
  unfold find_group.
  induction gs as [|g gs IH]; simpl; [done|].
  intros H; inversion H; subst.
  destruct (g_key g =? k) eqn:E; [lia|]. by apply IH.
Qed.

Lemma find_group_insert_ne k k' x gs :
  k' <> k -> find_group k' (group_insert k x gs) = find_group k' gs.
Proof.
  intros Hne. unfold find_group.
  induction gs as [|g gs IH]; simpl.
  - destruct (k =? k') eqn:E; [lia|done].
  - destruct (k <? g_key g); simpl.
    + destruct (k =? k') eqn:E; [lia|done].
    + destruct (k =? g_key g) eqn:E2; simpl.
      * destruct (k =? k') eqn:E; [lia|].
        destruct (g_key g =? k') eqn:E3; [lia|done].
      * by rewrite IH.
Qed.

Lemma find_group_insert_eq k x gs :
  keys_sorted gs ->
  find_group k (group_insert k x gs)
  = Some {| g_key := k; g_first := x;
            g_rest := from_option g_members [] (find_group k gs) |}.
Proof.
  unfold keys_sorted.
  induction gs as [|g gs IH]; cbn [group_insert]; intros Hs.
  - unfold find_group; simpl. by rewrite Z.eqb_refl.
  - inversion Hs as [|? ? Hs' Hlt]; subst.
    destruct (k <? g_key g) eqn:E1.
    + rewrite (find_group_above k (g :: gs)).
      * unfold find_group; simpl. by rewrite Z.eqb_refl.
      * simpl. constructor; [lia|]. eapply Forall_impl; [exact Hlt|]. simpl; lia.
    + destruct (k =? g_key g) eqn:E2.
      * unfold find_group; simpl. rewrite Z.eqb_refl.
        destruct (g_key g =? k) eqn:E3; [done|lia].
      * specialize (IH Hs'). unfold find_group in *; simpl.
        destruct (g_key g =? k) eqn:E3; [lia|]. exact IH.
Qed.

Lemma find_group_groupby k rows :
  find_group k (groupby key rows)
  = match List.filter (fun r => key r =? k) rows with
    | [] => None
    | x :: l => Some {| g_key := k; g_first := x; g_rest := l |}
    end.
Proof.
  induction rows as [|r rows IH]; simpl; [done|].
  destruct (key r =? k) eqn:E.
  - assert (key r = k) as -> by lia.
    rewrite find_group_insert_eq by apply groupby_sorted.
    rewrite IH. by destruct (List.filter _ rows).
  - rewrite find_group_insert_ne by lia. exact IH.
Qed.

Lemma find_group_elem gs g :
  keys_sorted gs -> g ∈ gs -> find_group (g_key g) gs = Some g.
Proof.
  unfold keys_sorted, find_group.
  induction gs as [|g0 gs IH]; simpl; intros Hs Hin.
  - by apply elem_of_nil in Hin.
  - inversion Hs as [|? ? Hs' Hlt]; subst.
    apply elem_of_cons in Hin as [->|Hin].
    + by rewrite Z.eqb_refl.
    + destruct (g_key g0 =? g_key g) eqn:E; [|by apply IH].
      rewrite Forall_forall in Hlt.
      specialize (Hlt (g_key g)). 
      assert (g_key g0 < g_key g); [|lia].
      apply Hlt. by apply list_elem_of_fmap_2.
Qed.

Lemma find_group_Some k gs g :
  find_group k gs = Some g -> g ∈ gs /\ g_key g = k.
Proof.
  unfold find_group. intros H. apply find_some in H as [H1 H2].
  split; [by apply list_elem_of_In|lia].
Qed.

(** The rows of a group are the rows of the table with the group's key, in
    table order. *)
Lemma groupby_members g rows :
  g ∈ groupby key rows ->
  g_members g = List.filter (fun r => key r =? g_key g) rows.
Proof.
  intros Hin.
  pose proof (find_group_elem _ _ (groupby_sorted rows) Hin) as Hf.
  rewrite find_group_groupby in Hf.
  destruct (List.filter _ rows); [done|].
  by injection Hf as <-.
Qed.

(** The keys of the groups are the keys that occur in the table. *)
Lemma groupby_keys k rows :
  k ∈ g_key <$> groupby key rows <-> k ∈ key <$> rows.
Proof.
  rewrite !list_elem_of_fmap. split.
  - intros (g & -> & Hin).
    pose proof (groupby_members g rows Hin) as Hm.
    assert (In (g_first g) (List.filter (fun r => key r =? g_key g) rows)) as Hf.
    { rewrite <- Hm. by left. }
    apply filter_In in Hf as [Hf1 Hf2].
    exists (g_first g). split; [lia|by apply list_elem_of_In].
  - intros (r & -> & Hin).
    pose proof (find_group_groupby (key r) rows) as Hf.
    destruct (List.filter _ rows) as [|x l] eqn:E.
    + exfalso. assert (In r []) as []. rewrite <- E.
      apply filter_In. split; [by apply list_elem_of_In|lia].
    + apply find_group_Some in Hf as [Hf1 Hf2]. eauto.
Qed.

Lemma groupby_keys_NoDup rows : NoDup (g_key <$> groupby key rows).
Proof.
  pose proof (groupby_sorted rows) as Hs. unfold keys_sorted in Hs.
  induction Hs as [|k ks Hs IH Hlt]; constructor; [|done].
  intros Hin. rewrite Forall_forall in Hlt.
  apply Hlt in Hin. lia.
Qed.

Lemma group_insert_sizes k x gs :
  sum_list ((fun g => length (g_members g)) <$> group_insert k x gs)
  = S (sum_list ((fun g => length (g_members g)) <$> gs)).
Proof.
  induction gs as [|g gs IH]; cbn [group_insert]; [done|].
  destruct (k <? g_key g); [done|].
  destruct (k =? g_key g); [done|].
  rewrite !fmap_cons. change (sum_list (?a :: ?l)) with (a + sum_list l)%nat.
  rewrite IH. lia.
Qed.

(** Every row is in exactly one group. *)
Lemma groupby_sizes rows :
  sum_list ((fun g => length (g_members g)) <$> groupby key rows) = length rows.
Proof.
  induction rows as [|r rows IH]; [done|].
  cbn [groupby foldr]. rewrite group_insert_sizes. cbn [length]. f_equal. exact IH.
Qed.

End groupby_facts.

(** ** Facts about sorting and selection *)

Section sorting_facts.
Context {A : Type} (key id : A -> Z).
Implicit Types (l : list A) (x : A).

Lemma insert_desc_perm x l : insert_desc key x l ≡ₚ x :: l.
Proof.
  induction l as [|y l IH]; simpl; [done|].
  destruct (key y <=? key x); [done|].
  rewrite IH. apply Permutation_swap.
Qed.

Lemma sort_desc_perm l : foldr (insert_desc key) [] l ≡ₚ l.
Proof.
  induction l as [|x l IH]; simpl; [done|].
  by rewrite insert_desc_perm, IH.
Qed.

Lemma insert_desc_sorted x l :
  StronglySorted (ranks_before key id) l ->
  Forall (fun z => id x < id z) l ->
  StronglySorted (ranks_before key id) (insert_desc key x l).
Proof.
  induction l as [|y l IH]; simpl; intros Hs Hid.
  - repeat constructor.
  - apply StronglySorted_inv in Hs as [Hs Hy].
    inversion Hid as [|? ? Hidy Hidl]; subst.
    destruct (key y <=? key x) eqn:E.
    + constructor; [by constructor|].
      constructor.
      * unfold ranks_before. lia.
      * rewrite Forall_forall in Hy, Hidl |- *. intros z Hz.
        specialize (Hy z Hz). specialize (Hidl z Hz).
        unfold ranks_before in *. lia.
    + constructor; [by apply IH|].
      rewrite insert_desc_perm. constructor; [|done].
      unfold ranks_before. lia.
Qed.

Lemma sort_desc_sorted l :
  ids_ascending id l ->
  StronglySorted (ranks_before key id) (foldr (insert_desc key) [] l).
Proof.
  unfold ids_ascending.
  induction 1 as [|x l Hs IH Hx]; simpl; [constructor|].
  apply insert_desc_sorted; [done|].
  by rewrite sort_desc_perm.
Qed.

Lemma StronglySorted_app_inv (R : A -> A -> Prop) l1 l2 :
  StronglySorted R (l1 ++ l2) ->
  StronglySorted R l1 /\ forall a b, a ∈ l1 -> b ∈ l2 -> R a b.
Proof.
  induction l1 as [|x l1 IH]; simpl; intros Hs.
  - split; [constructor|]. intros a b Ha. by apply elem_of_nil in Ha.
  - apply StronglySorted_inv in Hs as [Hs Hx].
    destruct (IH Hs) as [IH1 IH2].
    apply Forall_app in Hx as [Hx1 Hx2].
    split; [by constructor|].
    intros a b Ha Hb. apply elem_of_cons in Ha as [->|Ha]; [|by apply IH2].
    rewrite Forall_forall in Hx2. by apply Hx2.
Qed.

(** [nlargest] on summaries listed by ascending id is the ranking cut
    to [n]. *)
Lemma nlargest_ranking n l :
  ids_ascending id l -> ranking_of n key id l (nlargest n key l).
Proof.
  intros Hid. unfold ranking_of, nlargest.
  pose proof (sort_desc_sorted l Hid) as Hs.
  pose proof (sort_desc_perm l) as Hp.
  rewrite <- (take_drop n (foldr (insert_desc key) [] l)) in Hs.
  apply StronglySorted_app_inv in Hs as [Hs1 Hs2].
  split; [|split; [done|split]].
  - by rewrite length_take, Hp.
  - exists (drop n (foldr (insert_desc key) [] l)).
    split; [|done]. by rewrite take_drop.
  - intros Hle. rewrite take_ge; [done|]. by rewrite Hp.
Qed.

Lemma insert_asc_head x l :
  Forall (fun z => key x < key z) l -> insert_asc key x l = x :: l.
Proof.
  destruct l as [|y l]; simpl; [done|].
  intros H; inversion H; subst.
  destruct (key x <=? key y) eqn:E; [done|lia].
Qed.

(** Sorting a table that is already in strictly ascending order changes
    nothing. *)
Lemma sort_values_sorted l :
  ids_ascending key l -> sort_values key l = l.
Proof.
  unfold ids_ascending, sort_values.
  induction 1 as [|x l Hs IH Hx]; simpl; [done|].
  rewrite IH. by apply insert_asc_head.
Qed.

End sorting_facts.

Lemma ids_ascending_fmap {A B} (f : A -> B) (id : B -> Z) (l : list A) :
  StronglySorted Z.lt ((fun a => id (f a)) <$> l) -> ids_ascending id (f <$> l).
Proof.
  unfold ids_ascending.
  induction l as [|x l IH]; rewrite ?fmap_cons; intros Hs; [constructor|].
  apply StronglySorted_inv in Hs as [Hs Hx].
  constructor; [by apply IH|].
  pose proof (proj1 (Forall_forall _ _) Hx) as Hx'.
  apply Forall_forall. intros b Hb.
  apply list_elem_of_fmap in Hb as (a & -> & Ha).
  apply Hx'. apply list_elem_of_fmap. by exists a.
Qed.

(** ** The clustering step, as one equation *)

Lemma M_bind_eq {A B} (m : M A) (k : A -> M B) (w : world) :
  (m ≫= k) w = match m w with
               | (Ok a, w') => k a w'
               | (Raise e, w') => (Raise e, w')
               end.
Proof. reflexivity. Qed.

Lemma read_stored df f w : read df (stored df f w) = (Ok f, stored df f w).
Proof. unfold read, stored; simpl. by rewrite lookup_insert_eq. Qed.

Lemma stored_stored df f1 f2 w : stored df f2 (stored df f1 w) = stored df f2 w.
Proof. unfold stored; simpl. by rewrite insert_insert_eq. Qed.

Lemma setitem_eq {A} df (setter : list A -> DataFrame -> DataFrame) values w f :
  heap w !! df = Some f ->
  setitem df setter values w =
  if (length values =? length (crashes f))%nat
  then (Ok tt, stored df (setter values f) w)
  else (Raise (ValueError_length (length values) (length (crashes f))), w).
Proof.
  intros Hf. unfold setitem. rewrite M_bind_eq. unfold read. rewrite Hf.
  by destruct (length values =? length (crashes f))%nat.
Qed.

Lemma setitem_stored {A} df (setter : list A -> DataFrame -> DataFrame) values w f :
  length values = length (crashes f) ->
  setitem df setter values (stored df f w) = (Ok tt, stored df (setter values f) w).
Proof.
  intros Hlen. rewrite (setitem_eq _ _ _ _ f).
  - rewrite Hlen, Nat.eqb_refl. by rewrite stored_stored.
  - unfold stored; simpl. by rewrite lookup_insert_eq.
Qed.

Lemma transform_sum_length cluster values :
  length (transform_sum cluster values) = length cluster.
Proof. unfold transform_sum. by rewrite length_fmap. Qed.

Lemma dropna_cons r rows :
  dropna (r :: rows) =
  match LATITUDE r, LONGITUD r with
  | Some la, Some lo => (la, lo) :: dropna rows
  | _, _ => dropna rows
  end.
Proof. unfold dropna. cbn. by destruct (LATITUDE r), (LONGITUD r). Qed.

Lemma dropna_length rows : (length (dropna rows) <= length rows)%nat.
Proof.
  induction rows as [|r rows IH]; [done|].
  rewrite dropna_cons. destruct (LATITUDE r), (LONGITUD r); simpl; lia.
Qed.

Section apply_facts.
Variable fit_predict : Q -> Z -> list (Q * Q) -> result (list Z).

Lemma apply_dbscan_clustering_eq df eps ms w :
  apply_dbscan_clustering fit_predict df eps ms w =
  match heap w !! df with
  | None => (Raise InvalidReference, w)
  | Some f =>
      match dropna (crashes f) with
      | [] => (Ok df, shown [no_valid_points] w)
      | coordinates =>
          match fit_predict eps ms coordinates with
          | Raise e => (Raise e, w)
          | Ok labels =>
              if (length labels =? length (crashes f))%nat
              then (Ok df, stored df (clustered f labels) w)
              else (Raise (ValueError_length (length labels) (length (crashes f))), w)
          end
      end
  end.
Proof.
  unfold apply_dbscan_clustering. rewrite M_bind_eq. unfold read at 1.
  destruct (heap w !! df) as [f|] eqn:Hf; [|done].
  pose proof (dropna_length (crashes f)) as Hdrop.
  destruct (dropna (crashes f)) as [|p ps] eqn:Hc; [done|].
  cbn [length Nat.eqb]. rewrite M_bind_eq. unfold lift at 1.
  destruct (fit_predict eps ms (p :: ps)) as [labels|e]; [|done].
  rewrite M_bind_eq, (setitem_eq _ _ _ _ f Hf).
  destruct (length labels =? length (crashes f))%nat eqn:Hlen; [|done].
  apply Nat.eqb_eq in Hlen.
  rewrite M_bind_eq, read_stored. cbn [with_cluster col_cluster crashes].
  rewrite M_bind_eq, setitem_stored
    by (by rewrite transform_sum_length).
  rewrite M_bind_eq. unfold getitem. rewrite M_bind_eq, read_stored.
  cbn [with_fatalities with_cluster col_fatalities crashes col_cluster
       col_zone_label col_zone_color mret M_ret].
  destruct labels as [|c labels]; [simpl in *; lia|].
  destruct (categorize_zone <$> transform_sum (c :: labels) (FATALS <$> crashes f))
    as [|z zones] eqn:Hz; [done|].
  rewrite <- Hz.
  rewrite M_bind_eq, setitem_stored; last first.
  { cbn [crashes]. by rewrite !length_fmap, transform_sum_length. }
  rewrite M_bind_eq, setitem_stored; last first.
  { cbn [crashes with_zone_label]. by rewrite !length_fmap, transform_sum_length. }
  reflexivity.
Qed.

End apply_facts.

(** ** Sums of an int64 column *)

Lemma wrap64_exact z : in_int64 z -> wrap64 z = z.
Proof.
  unfold in_int64, wrap64. intros H.
  rewrite Z.mod_small by lia. lia.
Qed.

Lemma wrap64_in_int64 z : in_int64 (wrap64 z).
Proof.
  unfold in_int64, wrap64.
  pose proof (Z.mod_pos_bound (z + 2 ^ 63) (2 ^ 64) ltac:(lia)). lia.
Qed.

Lemma wrap64_add_l a b : wrap64 (wrap64 a + b) = wrap64 (a + b).
Proof.
  unfold wrap64. f_equal.
  replace ((a + 2 ^ 63) mod 2 ^ 64 - 2 ^ 63 + b + 2 ^ 63)
    with ((a + 2 ^ 63) mod 2 ^ 64 + b) by lia.
  rewrite Zplus_mod_idemp_l. f_equal. lia.
Qed.

Lemma wrap64_add_r a b : wrap64 (a + wrap64 b) = wrap64 (a + b).
Proof. by rewrite (Z.add_comm a), wrap64_add_l, Z.add_comm. Qed.

Lemma wrap64_wrap64 z : wrap64 (wrap64 z) = wrap64 z.
Proof. apply wrap64_exact, wrap64_in_int64. Qed.

(** The running total of [int64_sum] is the exact sum, wrapped once. *)
Lemma int64_sum_from total l :
  foldl (fun total x => wrap64 (total + x)) (wrap64 total) l = wrap64 (total + sum_Z l).
Proof.
  revert total. induction l as [|x l IH]; intros total; cbn [foldl sum_Z foldr].
  - by rewrite Z.add_0_r.
  - change (foldr Z.add 0 l) with (sum_Z l).
    by rewrite IH, <- Z.add_assoc, wrap64_add_l.
Qed.

Lemma int64_sum_eq l : int64_sum l = wrap64 (sum_Z l).
Proof. apply (int64_sum_from 0). Qed.

Lemma int64_sum_exact l : in_int64 (sum_Z l) -> int64_sum l = sum_Z l.
Proof. intros H. by rewrite int64_sum_eq, wrap64_exact. Qed.

(** Wrapping the terms of a sum does not change the wrapped sum. *)
Lemma wrap64_sum_wrap64 l : wrap64 (sum_Z (wrap64 <$> l)) = wrap64 (sum_Z l).
Proof.
  induction l as [|x l IH]; [done|].
  rewrite fmap_cons.
  change (sum_Z (wrap64 x :: (wrap64 <$> l))) with (wrap64 x + sum_Z (wrap64 <$> l)).
  change (sum_Z (x :: l)) with (x + sum_Z l).
  by rewrite wrap64_add_l, <- wrap64_add_r, IH, wrap64_add_r.
Qed.

(** A term of a sum of non-negative integers is at most the sum. *)
Lemma sum_Z_nonneg l : Forall (fun x => 0 <= x) l -> 0 <= sum_Z l.
Proof.
  induction 1 as [|x l Hx _ IH]; cbn [sum_Z foldr]; [done|].
  change (foldr Z.add 0 l) with (sum_Z l). lia.
Qed.

Lemma sum_Z_term l x : Forall (fun x => 0 <= x) l -> x ∈ l -> 0 <= x <= sum_Z l.
Proof.
  induction 1 as [|y l Hy Hl IH]; intros Hin; [by apply elem_of_nil in Hin|].
  cbn [sum_Z foldr]. change (foldr Z.add 0 l) with (sum_Z l).
  pose proof (sum_Z_nonneg l Hl).
  apply elem_of_cons in Hin as [->|Hin]; [lia|].
  specialize (IH Hin). lia.
Qed.

(** ** The attached columns, row by row *)

Lemma members_of_fmap {A B} (h : A -> B) c cluster (col : list A) :
  members_of c cluster (h <$> col) = h <$> members_of c cluster col.
Proof.
  unfold members_of. revert col.
  induction cluster as [|k cluster IH]; intros [|x col]; simpl; try done.
  destruct (k =? c); simpl; by rewrite IH.
Qed.

(** Every row receives the sum over the rows with its own id, as an int64
    holds it. *)
Lemma transform_sum_eq cluster values :
  transform_sum cluster values
  = (fun c => wrap64 (sum_Z (members_of c cluster values))) <$> cluster.
Proof.
  unfold transform_sum. apply list_fmap_ext. intros _ c _.
  rewrite find_group_groupby. unfold members_of.
  destruct (List.filter _ (zip cluster values)); [done|].
  apply int64_sum_eq.
Qed.

Lemma clustered_rows_annotate (total : Z -> Z) rs labels :
  length labels = length rs ->
  clustered_rows rs labels (total <$> labels)
    (fst <$> (categorize_zone <$> (total <$> labels)))
    (snd <$> (categorize_zone <$> (total <$> labels)))
  = zip_with (annotate total) rs labels.
Proof.
  revert labels. induction rs as [|r rs IH]; intros [|c labels] Hlen; try done.
  simpl in *. f_equal. apply IH. lia.
Qed.

Lemma rows_of_clustered f labels :
  length labels = length (crashes f) ->
  rows_of (clustered f labels)
  = Ok (zip_with (annotate (fun c => fatality_sum c labels (crashes f)))
          (crashes f) labels).
Proof.
  intros Hlen. unfold rows_of, clustered; cbn.
  rewrite transform_sum_eq. f_equal.
  rewrite <- clustered_rows_annotate by done.
  unfold fatality_sum.
  assert ((fun c => wrap64 (sum_Z (members_of c labels (FATALS <$> crashes f))))
            <$> labels
          = (fun c => wrap64 (sum_Z (FATALS <$> members_of c labels (crashes f))))
            <$> labels) as ->;
    [|done].
  apply list_fmap_ext. intros _ c _. by rewrite members_of_fmap.
Qed.

Lemma mask_rows_cons {A} (b : bool) mask (x : A) col :
  mask_rows (b :: mask) (x :: col)
  = if b then x :: mask_rows mask col else mask_rows mask col.
Proof. unfold mask_rows. simpl. by destruct b. Qed.

Lemma clustered_rows_mask rs cl fa zl zc :
  length cl = length rs -> length fa = length rs ->
  length zl = length rs -> length zc = length rs ->
  let mask := (fun c => negb (is_noise c)) <$> cl in
  clustered_rows (mask_rows mask rs) (mask_rows mask cl) (mask_rows mask fa)
    (mask_rows mask zl) (mask_rows mask zc)
  = List.filter keeps_noise_out (clustered_rows rs cl fa zl zc).
Proof.
  revert cl fa zl zc.
  induction rs as [|r rs IH]; intros [|c cl] [|a fa] [|l zl] [|k zc]; try done.
  intros H1 H2 H3 H4. simpl in H1, H2, H3, H4.
  cbn [fmap list_fmap]. rewrite !mask_rows_cons.
  cbn [clustered_rows List.filter]. unfold keeps_noise_out at 1; cbn [cc_cluster].
  specialize (IH cl fa zl zc ltac:(lia) ltac:(lia) ltac:(lia) ltac:(lia)).
  cbn zeta in IH.
  destruct (negb (is_noise c)); cbn [clustered_rows]; by rewrite IH.
Qed.

(** Removing the outliers from a clustered frame removes their rows. *)
Lemma rows_of_drop_noise f labels :
  length labels = length (crashes f) ->
  exists f', drop_noise (clustered f labels) = Ok f' /\
    rows_of f' = (Ok (List.filter keeps_noise_out
      (zip_with (annotate (fun c => fatality_sum c labels (crashes f)))
         (crashes f) labels))).
Proof.
  intros Hlen. eexists. split; [reflexivity|].
  pose proof (rows_of_clustered f labels Hlen) as Hrows.
  unfold rows_of in *. cbn in *.
  injection Hrows as <-. f_equal.
  apply clustered_rows_mask;
    by rewrite ?length_fmap, ?transform_sum_length.
Qed.

(** ** The rendering and the page, as equations *)

Lemma shown_shown es1 es2 w : shown es2 (shown es1 w) = shown (es1 ++ es2) w.
Proof. unfold shown; simpl. by rewrite <- app_assoc. Qed.

Lemma show_eq e w : show e w = (Ok tt, shown [e] w).
Proof. reflexivity. Qed.

Section page_facts.
Variable fit_predict : Q -> Z -> list (Q * Q) -> result (list Z).
Context {group_mean : FloatMean}.

Lemma render_map_and_metrics_with_dbscan_eq df filters_dict so w :
  render_map_and_metrics_with_dbscan df filters_dict so w =
  match heap w !! df with
  | None => (Raise InvalidReference, w)
  | Some f =>
      if (length (crashes f) =? 0)%nat then (Ok tt, shown [no_crashes] w)
      else match rows_of f with
           | Raise e => (Raise e, w)
           | Ok rows => (Ok tt, shown (page_output filters_dict so rows) w)
           end
  end.
Proof.
  unfold render_map_and_metrics_with_dbscan. rewrite M_bind_eq. unfold read.
  destruct (heap w !! df) as [f|]; [|done].
  destruct (length (crashes f) =? 0)%nat; [done|].
  rewrite M_bind_eq. unfold lift.
  destruct (rows_of f) as [rows|e]; [|done].
  cbv [mbind M_bind show]. cbn [heap screen].
  unfold shown, page_output. by rewrite <- !app_assoc.
Qed.

Lemma mask_rows_length {A B} mask (col1 : list A) (col2 : list B) :
  length col1 = length col2 ->
  length (mask_rows mask col1) = length (mask_rows mask col2).
Proof.
  revert col1 col2.
  induction mask as [|b mask IH]; intros [|x col1] [|y col2] Hlen; try done.
  rewrite !mask_rows_cons. simpl in Hlen.
  destruct b; simpl; auto.
Qed.

Lemma clustered_rows_length rs cl fa zl zc :
  length cl = length rs -> length fa = length rs ->
  length zl = length rs -> length zc = length rs ->
  length (clustered_rows rs cl fa zl zc) = length rs.
Proof.
  revert cl fa zl zc.
  induction rs as [|r rs IH]; intros [|c cl] [|a fa] [|l zl] [|k zc]; try done.
  simpl. intros. f_equal. apply IH; lia.
Qed.

(** The frame without its outliers has as many rows as [rows_of] lists. *)
Lemma drop_noise_clustered f labels :
  length labels = length (crashes f) ->
  exists f', drop_noise (clustered f labels) = Ok f' /\
    rows_of f' = (Ok (List.filter keeps_noise_out
      (zip_with (annotate (fun c => fatality_sum c labels (crashes f)))
         (crashes f) labels))) /\
    length (crashes f') = length (List.filter keeps_noise_out
      (zip_with (annotate (fun c => fatality_sum c labels (crashes f)))
         (crashes f) labels)).
Proof.
  intros Hlen.
  destruct (rows_of_drop_noise f labels Hlen) as (f' & Hd & Hrows).
  exists f'. split; [done|]. split; [done|].
  injection Hd as <-. unfold rows_of in Hrows. cbn in Hrows.
  injection Hrows as <-. cbn [crashes].
  symmetry. apply clustered_rows_length; apply mask_rows_length;
    by rewrite ?length_fmap, ?transform_sum_length.
Qed.

(** The page on a table that the clustering step labels. *)
Lemma render_dbscan_page_clustered filtered filters_dict controls w f labels :
  heap w !! filtered = Some f ->
  dropna (crashes f) <> [] ->
  fit_predict (eps controls) (min_samples controls) (dropna (crashes f)) = Ok labels ->
  length labels = length (crashes f) ->
  let rows := zip_with (annotate (fun c => fatality_sum c labels (crashes f)))
                (crashes f) labels in
  exists w',
    render_dbscan_page fit_predict filtered filters_dict controls w = (Ok tt, w') /\
    heap w' !! filtered = Some (clustered f labels) /\
    screen w' = screen w ++
      (if show_outliers controls then page_output filters_dict true rows
       else match List.filter keeps_noise_out rows with
            | [] => [no_crashes]
            | rows' => page_output filters_dict false rows'
            end).
Proof.
  intros Hf Hne Hfit Hlen rows.
  pose proof (dropna_length (crashes f)) as Hdrop.
  assert ((length (crashes f) =? 0)%nat = false) as Hnonempty.
  { apply Nat.eqb_neq. destruct (dropna (crashes f)); [done|]. simpl in Hdrop. lia. }
  unfold render_dbscan_page. rewrite M_bind_eq. unfold read at 1. rewrite Hf, Hnonempty.
  rewrite M_bind_eq, apply_dbscan_clustering_eq, Hf.
  destruct (dropna (crashes f)) as [|p ps] eqn:Hc; [done|].
  rewrite Hfit, Hlen, Nat.eqb_refl.
  rewrite M_bind_eq, read_stored. cbn [clustered col_cluster].
  destruct (show_outliers controls); cbn [negb].
  - rewrite M_bind_eq. cbn [mret M_ret].
    rewrite render_map_and_metrics_with_dbscan_eq.
    cbn [stored heap]. rewrite lookup_insert_eq.
    change (crashes (clustered f labels)) with (crashes f).
    rewrite Hnonempty, (rows_of_clustered f labels Hlen).
    eexists. split; [reflexivity|]. split; [|done].
    cbn. by rewrite lookup_insert_eq.
  - destruct (drop_noise_clustered f labels Hlen) as (f' & Hd & Hrows & Hlen').
    rewrite !M_bind_eq. unfold lift. rewrite Hd. unfold alloc.
    rewrite render_map_and_metrics_with_dbscan_eq.
    cbn [heap stored]. rewrite lookup_insert_eq, Hrows, Hlen'.
    fold rows.
    set (l := fresh _).
    assert (l <> filtered) as Hl.
    { intros Heq.
      pose proof (is_fresh (dom (<[filtered:=clustered f labels]> (heap w)))) as Hfr.
      apply Hfr.
      change (l ∈ dom (<[filtered:=clustered f labels]> (heap w))).
      rewrite Heq.
      apply elem_of_dom. rewrite lookup_insert_eq. eauto. }
    destruct (List.filter keeps_noise_out rows) as [|r rows'] eqn:Hrows'.
    + eexists. split; [reflexivity|]. split; [|done].
      cbn. rewrite lookup_insert_ne by done. by rewrite lookup_insert_eq.
    + eexists. split; [reflexivity|]. split; [|done].
      cbn. rewrite lookup_insert_ne by done. by rewrite lookup_insert_eq.
Qed.

End page_facts.

(** ** Facts about the DBSCAN model *)

Module SklearnFacts.
Import Sklearn.

Lemma expand_length fuel nbs core num i stack labels :
  length (expand fuel nbs core num i stack labels) = length labels.
Proof.
  revert i stack labels.
  induction fuel as [|fuel IH]; intros i stack labels; simpl; [done|].
  destruct (unlabelled labels i).
  - destruct (default false (core !! i)).
    + destruct (rev _ ++ stack); [|rewrite IH]; by rewrite length_insert.
    + destruct stack; [|rewrite IH]; by rewrite length_insert.
  - destruct stack; [done|by rewrite IH].
Qed.

Lemma dbscan_inner_length nbs core n :
  length (dbscan_inner nbs core n) = n.
Proof.
  unfold dbscan_inner.
  assert (forall l (st : list Z * Z), length (fst st) = n ->
            length (fst (foldl (fun (st : list Z * Z) (i : nat) =>
              let '(labels, label_num) := st in
              if negb (unlabelled labels i) || negb (default false (core !! i))
              then (labels, label_num)
              else (expand (n * (n + 1) + 1) nbs core label_num i [] labels,
                    label_num + 1)) st l)) = n) as H.
  { induction l as [|i l IH]; intros [labels num] Hst; simpl; [done|].
    apply IH. destruct (_ || _); simpl; [done|].
    by rewrite expand_length. }
  apply H. simpl. by rewrite length_replicate.
Qed.

(** *** The labelling loop ends within its fuel *)

Lemma unlabelled_Some labels i :
  unlabelled labels i = true -> labels !! i = Some (-1).
Proof.
  unfold unlabelled. destruct (labels !! i) as [l|]; [|done].
  intros H. f_equal. lia.
Qed.

Lemma unlabelled_count_insert labels i num :
  labels !! i = Some (-1) -> num <> -1 ->
  S (unlabelled_count (<[i := num]> labels)) = unlabelled_count labels.
Proof.
  unfold unlabelled_count. revert i.
  induction labels as [|l labels IH]; intros [|i] Hi Hnum; simpl in *; try done.
  - injection Hi as ->. simpl.
    destruct (num =? -1) eqn:E; [lia|done].
  - destruct (l =? -1); simpl; rewrite <- (IH i) by done; done.
Qed.

Lemma length_pushed labels nb stack :
  (length (rev (List.filter (unlabelled labels) nb) ++ stack)
   <= length nb + length stack)%nat.
Proof.
  rewrite length_app, length_rev.
  pose proof (filter_length_le (unlabelled labels) nb). lia.
Qed.

(** Each turn of the loop either labels a point or only pops the stack:
    with more fuel than [(n + 1) * unlabelled + |stack|] the result does not
    depend on the fuel. *)
Lemma expand_fuel fuel1 fuel2 nbs core num i stack labels :
  Forall (fun nb => (length nb <= length labels)%nat) nbs ->
  num <> -1 ->
  ((length labels + 1) * unlabelled_count labels + length stack < fuel1)%nat ->
  ((length labels + 1) * unlabelled_count labels + length stack < fuel2)%nat ->
  expand fuel1 nbs core num i stack labels = expand fuel2 nbs core num i stack labels.
Proof.
  intros Hnbs Hnum. revert fuel2 i stack labels Hnbs.
  induction fuel1 as [|fuel1 IH]; intros [|fuel2] i stack labels Hnbs H1 H2; try lia.
  cbn [expand].
  destruct (unlabelled labels i) eqn:Hi.
  - apply unlabelled_Some in Hi.
    pose proof (unlabelled_count_insert labels i num Hi Hnum) as Hcount.
    set (labels1 := <[i := num]> labels) in *.
    assert (length labels1 = length labels) as Hlen by apply length_insert.
    assert (Forall (fun nb => (length nb <= length labels1)%nat) nbs) as Hnbs1
      by (by rewrite Hlen).
    assert ((length (default [] (nbs !! i)) <= length labels)%nat) as Hnb.
    { destruct (nbs !! i) as [nb|] eqn:E; simpl; [|lia].
      rewrite Forall_forall in Hnbs. apply Hnbs. by eapply list_elem_of_lookup_2. }
    pose proof (length_pushed labels1 (default [] (nbs !! i)) stack) as Hpush.
    rewrite <- Hcount in H1, H2. rewrite Nat.mul_succ_r in H1, H2.
    destruct (default false (core !! i)).
    + destruct (rev _ ++ stack) as [|j stack2]; [done|].
      simpl in Hpush. apply IH; [done|rewrite Hlen; lia|rewrite Hlen; lia].
    + destruct stack as [|j stack2]; [done|].
      simpl in H1, H2. apply IH; [done|rewrite Hlen; lia|rewrite Hlen; lia].
  - destruct stack as [|j stack2]; [done|].
    simpl in H1, H2. apply IH; [done|lia|lia].
Qed.

Lemma unlabelled_count_le labels : (unlabelled_count labels <= length labels)%nat.
Proof. apply filter_length_le. Qed.

(** The fuel of [dbscan_inner] is enough: any more of it changes nothing. *)
Lemma expand_enough_fuel extra nbs core num i labels :
  let n := length labels in
  Forall (fun nb => (length nb <= n)%nat) nbs ->
  0 <= num ->
  expand (n * (n + 1) + 1 + extra) nbs core num i [] labels
  = expand (n * (n + 1) + 1) nbs core num i [] labels.
Proof.
  intros n Hnbs Hnum.
  pose proof (unlabelled_count_le labels) as Hle. fold n in Hle.
  assert (((n + 1) * unlabelled_count labels <= n * (n + 1))%nat) as Hbound.
  { rewrite (Nat.mul_comm n (n + 1)). by apply Nat.mul_le_mono_l. }
  apply expand_fuel; [done|lia|simpl; fold n; lia|simpl; fold n; lia].
Qed.

Lemma neighborhood_length eps X p : (length (neighborhood eps X p) <= length X)%nat.
Proof.
  unfold neighborhood. rewrite length_fmap.
  etransitivity; [apply filter_length_le|]. by rewrite length_imap.
Qed.

(** One label per point. *)
Lemma fit_predict_length eps min_samples X labels :
  fit_predict eps min_samples X = Ok labels -> length labels = length X.
Proof.
  unfold fit_predict. destruct (_ || _); [done|].
  intros [= <-]. apply dbscan_inner_length.
Qed.


End SklearnFacts.

(** ** The zone classifier *)

(** C2. The classifier is defined on every integer fatality sum, so on
    every non-negative one: a sum of 100 or more is ("Danger", red), a sum
    from 50 up to but not including 100 is ("Mild", yellow), a sum below 50
    is ("Low Danger", green), and the three cases leave no sum out; 99 is
    "Mild", 100 "Danger", 49 "Low Danger" and 50 "Mild". *)
Theorem categorize_zone_tiers (fatalities : Z) :
  (100 <= fatalities -> categorize_zone fatalities = ("Danger", "red")) /\
  (50 <= fatalities < 100 -> categorize_zone fatalities = ("Mild", "yellow")) /\
  (fatalities < 50 -> categorize_zone fatalities = ("Low Danger", "green")) /\
  (100 <= fatalities \/ 50 <= fatalities < 100 \/ fatalities < 50) /\
  categorize_zone 99 = ("Mild", "yellow") /\
  categorize_zone 100 = ("Danger", "red") /\
  categorize_zone 49 = ("Low Danger", "green") /\
  categorize_zone 50 = ("Mild", "yellow").
Proof.
  unfold categorize_zone.
  repeat split; try reflexivity; try lia.
  - intros H. destruct (100 <=? fatalities) eqn:E; [done|lia].
  - intros H. destruct (100 <=? fatalities) eqn:E1; [lia|].
    destruct (50 <=? fatalities) eqn:E2; [|lia].
    destruct (fatalities <? 100) eqn:E3; [done|lia].
  - intros H. destruct (100 <=? fatalities) eqn:E1; [lia|].
    destruct (50 <=? fatalities) eqn:E2; [lia|done].
Qed.

(** ** The summaries *)

Section summary_facts.
Context {group_mean : FloatMean}.

Lemma cluster_summary_map_ids rows :
  mc_cluster <$> cluster_summary_map rows = g_key <$> groupby cc_cluster rows.
Proof. unfold cluster_summary_map. by rewrite <- list_fmap_compose. Qed.

Lemma cluster_summary_metrics_ids rows :
  mt_cluster <$> cluster_summary_metrics rows = g_key <$> groupby cc_cluster rows.
Proof. unfold cluster_summary_metrics. by rewrite <- list_fmap_compose. Qed.

Lemma cluster_summary_map_ascending rows :
  ids_ascending mc_cluster (cluster_summary_map rows).
Proof. apply ids_ascending_fmap. apply (groupby_sorted cc_cluster). Qed.

Lemma cluster_summary_metrics_ascending rows :
  ids_ascending mt_cluster (cluster_summary_metrics rows).
Proof. apply ids_ascending_fmap. apply (groupby_sorted cc_cluster). Qed.

(** The map is ranked on the summaries as they are grouped: sorting them by
    cluster id first changes nothing. *)
Lemma top_clusters_map_eq rows :
  top_clusters_map rows = nlargest 10 mc_fatalities (cluster_summary_map rows).
Proof.
  unfold top_clusters_map.
  by rewrite sort_values_sorted by apply cluster_summary_map_ascending.
Qed.

Lemma nlargest_elem {A} n (key : A -> Z) (l : list A) x :
  x ∈ nlargest n key l -> x ∈ l.
Proof.
  unfold nlargest. intros H. apply elem_of_take in H as (i & H & _).
  apply list_elem_of_lookup_2 in H. by rewrite sort_desc_perm in H.
Qed.

Lemma keeps_noise_out_ids rows :
  (-1) ∉ (cc_cluster <$> List.filter keeps_noise_out rows).
Proof.
  intros H. apply list_elem_of_fmap in H as (r & Hr & Hin).
  apply list_elem_of_In, filter_In in Hin as [_ Hk].
  unfold keeps_noise_out, is_noise in Hk. rewrite <- Hr in Hk. done.
Qed.

(** C1, as the code has it.  Each aggregation produces exactly one summary
    per distinct cluster id among the rows it is given, the noise id -1
    included: a summary for -1 exists exactly when a noise row is present.
    When the outliers are removed first (Show Outliers off) no summary has
    the id -1, and so none of the ranked summaries has. *)
Theorem summaries_one_per_id_present (rows : list ClusteredCrash) (n : nat) :
  NoDup (mc_cluster <$> cluster_summary_map rows) /\
  NoDup (mt_cluster <$> cluster_summary_metrics rows) /\
  (forall c, c ∈ (mc_cluster <$> cluster_summary_map rows) <-> c ∈ (cc_cluster <$> rows)) /\
  (forall c, c ∈ (mt_cluster <$> cluster_summary_metrics rows) <-> c ∈ (cc_cluster <$> rows)) /\
  ((-1) ∉ (mc_cluster <$> top_clusters_map (List.filter keeps_noise_out rows))) /\
  ((-1) ∉ (mt_cluster <$> top_clusters_metrics n (List.filter keeps_noise_out rows))).
Proof.
  rewrite cluster_summary_map_ids, cluster_summary_metrics_ids.
  split; [apply groupby_keys_NoDup|].
  split; [apply groupby_keys_NoDup|].
  split; [intros c; apply groupby_keys|].
  split; [intros c; apply groupby_keys|].
  split.
  - intros H. apply list_elem_of_fmap in H as (s & Hs & Hin).
    rewrite top_clusters_map_eq in Hin. apply nlargest_elem in Hin.
    apply (keeps_noise_out_ids rows).
    apply (groupby_keys cc_cluster). rewrite <- cluster_summary_map_ids.
    rewrite Hs. by apply list_elem_of_fmap_2.
  - intros H. apply list_elem_of_fmap in H as (s & Hs & Hin).
    apply nlargest_elem in Hin.
    apply (keeps_noise_out_ids rows).
    apply (groupby_keys cc_cluster). rewrite <- cluster_summary_metrics_ids.
    rewrite Hs. by apply list_elem_of_fmap_2.
Qed.

End summary_facts.

(** C1, as stated, fails: with Show Outliers on, the two isolated crashes
    of the sample table are labelled -1, summarised, and shown as "Cluster
    2" on the map and as the first row of the metrics table. *)
Lemma noise_ranked_as_hotspot :
  let w' := snd (render_dbscan_page Sklearn.fit_predict 0%nat no_filter
                   (sample_controls true) (world_of sample_table)) in
  (col_cluster <$> heap w' !! 0%nat) = Some (Some [0; 0; -1; -1]) /\
  shown_map_ids w' = [[0; -1]] /\
  shown_table_ids w' = [[-1; 0]].
Proof. vm_compute. done. Qed.

(** ** Ranking *)

(** C5. Both rankings return the summaries cut to [n] in ranking order: at
    most [n] of them and all of them when there are no more than [n], by
    the ranking key descending ([fatalities] for the map, [crashes] for the
    metrics table), summaries of equal key by ascending cluster id, and no
    summary left out ranks before a selected one.  The map uses [n = 10]. *)
Theorem top_clusters_ranking {group_mean : FloatMean}
    (rows : list ClusteredCrash) (n : nat) :
  ranking_of n mc_fatalities mc_cluster (cluster_summary_map rows)
    (nlargest n mc_fatalities (sort_values mc_cluster (cluster_summary_map rows))) /\
  ranking_of 10 mc_fatalities mc_cluster (cluster_summary_map rows)
    (top_clusters_map rows) /\
  ranking_of n (fun s => Z.of_nat (mt_crashes s)) mt_cluster
    (cluster_summary_metrics rows) (top_clusters_metrics n rows).
Proof.
  split; [|split].
  - rewrite sort_values_sorted by apply cluster_summary_map_ascending.
    apply nlargest_ranking, cluster_summary_map_ascending.
  - rewrite top_clusters_map_eq.
    apply nlargest_ranking, cluster_summary_map_ascending.
  - apply nlargest_ranking, cluster_summary_metrics_ascending.
Qed.

(** ** The clustering step: outcomes *)

Section clustering_claims.
Variable fit_predict : Q -> Z -> list (Q * Q) -> result (list Z).
Context {group_mean : FloatMean}.

(** What a successful, labelling run of the step on a raw table did. *)
Lemma apply_dbscan_clustering_labelled df eps ms w w' l f f' labels :
  heap w !! df = Some f ->
  col_cluster f = None ->
  apply_dbscan_clustering fit_predict df eps ms w = (Ok l, w') ->
  heap w' !! df = Some f' ->
  col_cluster f' = Some labels ->
  f' = clustered f labels /\
  length labels = length (crashes f) /\
  fit_predict eps ms (dropna (crashes f)) = Ok labels /\
  dropna (crashes f) <> [] /\
  w' = stored df (clustered f labels) w.
Proof.
  intros Hf Hraw Happly Hf' Hlabels.
  rewrite apply_dbscan_clustering_eq, Hf in Happly.
  destruct (dropna (crashes f)) as [|p ps] eqn:Hc.
  - injection Happly as _ <-. cbn in Hf'. congruence.
  - destruct (fit_predict eps ms (p :: ps)) as [labels0|e]; [|done].
    destruct (length labels0 =? length (crashes f))%nat eqn:Hlen; [|done].
    injection Happly as _ <-. cbn in Hf'. rewrite lookup_insert_eq in Hf'.
    injection Hf' as <-. cbn in Hlabels. injection Hlabels as ->.
    apply Nat.eqb_eq in Hlen. done.
Qed.

(** On a table whose records all have coordinates the step is total: one
    label per record, and the crash counts of the summaries, noise
    included, add up to the number of records. *)
Lemma clustering_total_on_located_table df eps ms w f labels :
  (forall e m X ls, fit_predict e m X = Ok ls -> length ls = length X) ->
  heap w !! df = Some f ->
  crashes f <> [] ->
  length (dropna (crashes f)) = length (crashes f) ->
  fit_predict eps ms (dropna (crashes f)) = Ok labels ->
  apply_dbscan_clustering fit_predict df eps ms w
  = (Ok df, stored df (clustered f labels) w) /\
  length labels = length (crashes f) /\
  exists rows, rows_of (clustered f labels) = Ok rows /\
    sum_list (mt_crashes <$> cluster_summary_metrics rows) = length (crashes f).
Proof.
  intros Hcontract Hf Hne Hall Hfit.
  pose proof (Hcontract _ _ _ _ Hfit) as Hlen. rewrite Hall in Hlen.
  split; [|split; [done|]].
  - rewrite apply_dbscan_clustering_eq, Hf.
    destruct (dropna (crashes f)) as [|p ps] eqn:Hc.
    + destruct (crashes f); [done|]. simpl in Hall. lia.
    + by rewrite Hfit, Hlen, Nat.eqb_refl.
  - eexists. split; [by apply rows_of_clustered|].
    unfold cluster_summary_metrics. rewrite <- list_fmap_compose.
    change (mt_crashes ∘ _) with (fun g : group ClusteredCrash => length (g_members g)).
    rewrite groupby_sizes, length_zip_with. lia.
Qed.

(** C3, where the code departs from it.  When some record of a table has
    coordinates and some other has not, the labels that the library returns
    for the located records are assigned to the whole table: the step raises
    (the length error of the column assignment, unless the library call
    itself failed) and no record receives an id. *)
Theorem clustering_raises_on_partly_located_table df eps ms w f :
  (forall e m X labels, fit_predict e m X = Ok labels -> length labels = length X) ->
  heap w !! df = Some f ->
  dropna (crashes f) <> [] ->
  length (dropna (crashes f)) <> length (crashes f) ->
  apply_dbscan_clustering fit_predict df eps ms w =
  (Raise match fit_predict eps ms (dropna (crashes f)) with
         | Ok _ => ValueError_length (length (dropna (crashes f))) (length (crashes f))
         | Raise e => e
         end, w).
Proof.
  intros Hcontract Hf Hne Hpartly.
  rewrite apply_dbscan_clustering_eq, Hf.
  destruct (dropna (crashes f)) as [|p ps] eqn:Hc; [done|].
  destruct (fit_predict eps ms (p :: ps)) as [labels|e] eqn:Hfit; [|done].
  apply Hcontract in Hfit. rewrite Hfit.
  destruct (length (p :: ps) =? length (crashes f))%nat eqn:Hlen; [|done].
  apply Nat.eqb_eq in Hlen. done.
Qed.

(** A raw table satisfies the invariant, and the step keeps it. *)
Lemma raw_frame_labelled_only_if_located table :
  labelled_only_if_located (raw_frame table).
Proof. by left. Qed.

Lemma apply_dbscan_clustering_keeps_invariant df eps ms w r w' f f' :
  (forall e m X ls, fit_predict e m X = Ok ls -> length ls = length X) ->
  heap w !! df = Some f ->
  labelled_only_if_located f ->
  apply_dbscan_clustering fit_predict df eps ms w = (r, w') ->
  heap w' !! df = Some f' ->
  labelled_only_if_located f'.
Proof.
  intros Hcontract Hf Hinv Happly Hf'.
  rewrite apply_dbscan_clustering_eq, Hf in Happly.
  destruct (dropna (crashes f)) as [|p ps] eqn:Hc.
  - injection Happly as _ <-. cbn in Hf'. congruence.
  - destruct (fit_predict eps ms (p :: ps)) as [labels|e] eqn:Hfit.
    + destruct (length labels =? length (crashes f))%nat eqn:Hlen.
      * injection Happly as _ <-. cbn in Hf'. rewrite lookup_insert_eq in Hf'.
        injection Hf' as <-. right. cbn [clustered crashes].
        apply Nat.eqb_eq in Hlen. apply Hcontract in Hfit. rewrite Hc. lia.
      * injection Happly as _ <-. congruence.
    + injection Happly as _ <-. congruence.
Qed.

(** C6. With no valid-coordinate point the step shows the "no valid data
    points" error and returns the table as it is, with no label assigned;
    the page, finding no [cluster] column, shows "Clustering failed" and
    stops: no map and no metrics are rendered.  (An empty table is stopped
    by the page before the step.)  The table is any table the page can
    hold: a raw one, or one labelled by an earlier run. *)
Theorem no_valid_points_signalled filtered filters_dict controls w f :
  heap w !! filtered = Some f ->
  dropna (crashes f) = [] ->
  labelled_only_if_located f ->
  apply_dbscan_clustering fit_predict filtered (eps controls) (min_samples controls) w
  = (Ok filtered, shown [no_valid_points] w) /\
  render_dbscan_page fit_predict filtered filters_dict controls w
  = (Ok tt, shown match crashes f with
                  | [] => [no_data_points]
                  | _ => [no_valid_points; clustering_failed]
                  end w).
Proof.
  intros Hf Hnone Hinv.
  assert (apply_dbscan_clustering fit_predict filtered (eps controls)
            (min_samples controls) w = (Ok filtered, shown [no_valid_points] w)) as Happly.
  { by rewrite apply_dbscan_clustering_eq, Hf, Hnone. }
  split; [done|].
  unfold render_dbscan_page. rewrite M_bind_eq. unfold read at 1. rewrite Hf.
  destruct (crashes f) as [|r rs] eqn:Hrows; [done|].
  assert (col_cluster f = None) as Hraw.
  { destruct Hinv as [Hraw|Hall]; [done|].
    rewrite Hrows, Hnone in Hall. done. }
  cbn [length Nat.eqb].
  rewrite M_bind_eq, Happly, M_bind_eq.
  unfold read, shown; cbn [heap]. rewrite Hf, Hraw.
  rewrite show_eq. unfold shown; cbn. by rewrite <- app_assoc.
Qed.


(** C9, as the code has it.  The step works on the caller's table in
    place: it returns the reference it was given, leaves every other table
    and the input columns of this one unchanged, changes nothing when it
    raises, and on a table that the library labels it replaces the table by
    [clustered], whose attached columns are computed from the input columns
    and the labels alone.  The aggregation and the ranking, which are the
    rendering, change no table: whatever the table, the filters and the
    outcome, all tables are after the rendering as they were before, and
    what the rendering shows is computed from the rows of its table and the
    filters alone. *)
Theorem clustering_step_effects df eps ms w :
  (exists r w',
    apply_dbscan_clustering fit_predict df eps ms w = (r, w') /\
    (forall l, r = Ok l -> l = df) /\
    (forall e, r = Raise e -> w' = w) /\
    (forall l, l <> df -> heap w' !! l = heap w !! l) /\
    (crashes <$> heap w' !! df) = (crashes <$> heap w !! df) /\
    (forall f labels,
        heap w !! df = Some f ->
        dropna (crashes f) <> [] ->
        fit_predict eps ms (dropna (crashes f)) = Ok labels ->
        length labels = length (crashes f) ->
        r = Ok df /\ w' = stored df (clustered (raw_frame (crashes f)) labels) w)) /\
  (forall table filters_dict so w0,
     heap (snd (render_map_and_metrics_with_dbscan table filters_dict so w0)) = heap w0) /\
  (forall table filters_dict so w0 f rows,
     heap w0 !! table = Some f ->
     crashes f <> [] ->
     rows_of f = Ok rows ->
     render_map_and_metrics_with_dbscan table filters_dict so w0
     = (Ok tt, shown (page_output filters_dict so rows) w0)).
Proof.
  split; [|split].
  2:{ intros table filters_dict so w0.
      rewrite render_map_and_metrics_with_dbscan_eq.
      destruct (heap w0 !! table) as [f|]; [|done].
      destruct (length (crashes f) =? 0)%nat; [done|].
      by destruct (rows_of f). }
  2:{ intros table filters_dict so w0 f rows Hf Hne Hrows.
      rewrite render_map_and_metrics_with_dbscan_eq, Hf, Hrows.
      destruct (crashes f); [done|]. done. }
  rewrite apply_dbscan_clustering_eq.
  destruct (heap w !! df) as [f|] eqn:Hf.
  - destruct (dropna (crashes f)) as [|p ps] eqn:Hc.
    + exists (Ok df), (shown [no_valid_points] w).
      split; [done|]. unfold shown; cbn [heap].
      split; [congruence|]. split; [congruence|]. split; [done|].
      split; [by rewrite Hf|]. intros f0 labels0 [= <-]. congruence.
    + destruct (fit_predict eps ms (p :: ps)) as [labels|e] eqn:Hfit.
      * destruct (length labels =? length (crashes f))%nat eqn:Hlen.
        -- exists (Ok df), (stored df (clustered f labels) w).
           split; [done|]. unfold stored; cbn [heap].
           split; [congruence|]. split; [congruence|].
           split; [intros l Hl; by rewrite lookup_insert_ne|].
           split; [by rewrite lookup_insert_eq|].
           intros f0 labels0 [= <-] _ Hfit0 _. rewrite Hc in Hfit0.
           assert (labels0 = labels) as -> by congruence. done.
        -- exists (Raise (ValueError_length (length labels) (length (crashes f)))), w.
           split; [done|].
           split; [congruence|]. split; [done|]. split; [done|]. split; [by rewrite Hf|].
           intros f0 labels0 [= <-] _ Hfit0 Hlen0. rewrite Hc in Hfit0.
           assert (labels0 = labels) as -> by congruence.
           rewrite Hlen0, Nat.eqb_refl in Hlen. done.
      * exists (Raise e), w.
        split; [done|].
        split; [congruence|]. split; [done|]. split; [done|]. split; [by rewrite Hf|].
        intros f0 labels0 [= <-] _ Hfit0. rewrite Hc in Hfit0. congruence.
  - exists (Raise InvalidReference), w.
    split; [done|].
    split; [congruence|]. split; [done|]. split; [done|]. split; [by rewrite Hf|].
    intros f0 labels0. congruence.
Qed.

(** C10. After the step has labelled a raw table, every record labelled
    noise carries as [fatalities] the sum of the fatality counts of all the
    noise records together, and as zone label and color the classifier's
    answer for that sum.  The sum is the exact one, in the integers, for
    every table whose noise records have a sum that an int64 holds: the
    column is an int64 column. *)
Theorem noise_annotated_as_one_cluster df eps ms w w' f f' labels i :
  heap w !! df = Some f ->
  col_cluster f = None ->
  apply_dbscan_clustering fit_predict df eps ms w = (Ok df, w') ->
  heap w' !! df = Some f' ->
  col_cluster f' = Some labels ->
  labels !! i = Some (-1) ->
  let noise_sum := sum_Z (FATALS <$> members_of (-1) labels (crashes f)) in
  in_int64 noise_sum ->
  (col_fatalities f' ≫= fun col => col !! i) = Some noise_sum /\
  (col_zone_label f' ≫= fun col => col !! i) = Some (fst (categorize_zone noise_sum)) /\
  (col_zone_color f' ≫= fun col => col !! i) = Some (snd (categorize_zone noise_sum)).
Proof.
  intros Hf Hraw Happly Hf' Hlabels Hi noise_sum Hfits.
  destruct (apply_dbscan_clustering_labelled _ _ _ _ _ _ _ _ _
              Hf Hraw Happly Hf' Hlabels) as (-> & _).
  cbn. rewrite transform_sum_eq, !list_lookup_fmap, Hi. cbn.
  rewrite members_of_fmap. fold noise_sum. by rewrite (wrap64_exact _ Hfits).
Qed.

End clustering_claims.

(** ** The summaries of a clustered table *)



Lemma zip_with_annotate_Forall total rs labels :
  Forall (fun r => r = annotate total (cc_crash r) (cc_cluster r))
    (zip_with (annotate total) rs labels).
Proof.
  revert labels. induction rs as [|r rs IH]; intros [|k labels]; simpl; by constructor.
Qed.





Section summary_facts_of_rows.
Context {group_mean : FloatMean}.



End summary_facts_of_rows.

Section summary_claims.
Variable fit_predict : Q -> Z -> list (Q * Q) -> result (list Z).
Context {group_mean : FloatMean}.


End summary_claims.

(** ** The size of the rankings *)

Lemma length_cluster_names {A} (l : list A) : length (cluster_names l) = length l.
Proof. unfold cluster_names. by rewrite length_imap. Qed.

Lemma length_nlargest {A} n (key : A -> Z) (l : list A) :
  length (nlargest n key l) = Nat.min n (length l).
Proof. unfold nlargest. by rewrite length_take, sort_desc_perm. Qed.

(** C8, as the code has it.  The rendering derives the size of the metrics
    ranking from the filters itself: 5 when a county is selected, otherwise
    3 when a city is selected, otherwise 10; the table shown has that many
    rows, or as many as there are summaries when there are fewer.  The map
    is always cut to 10, whatever the filters. *)
Theorem top_n_derived_from_filters {group_mean : FloatMean} (filters_dict : Filters)
    (rows : list ClusteredCrash) (show_outliers : bool) :
  (county filters_dict <> "All counties" -> top_n_of filters_dict = 5%nat) /\
  (county filters_dict = "All counties" -> city filters_dict <> "All cities" ->
     top_n_of filters_dict = 3%nat) /\
  (county filters_dict = "All counties" -> city filters_dict = "All cities" ->
     top_n_of filters_dict = 10%nat) /\
  length (build_table (top_n_of filters_dict) rows)
  = Nat.min (top_n_of filters_dict) (length (cluster_summary_metrics rows)) /\
  length (fig_clusters (build_figure rows show_outliers))
  = Nat.min 10 (length (cluster_summary_map rows)).
Proof.
  unfold top_n_of.
  split; [|split; [|split; [|split]]].
  - intros H. apply String.eqb_neq in H. by rewrite H.
  - intros H1 H2. apply String.eqb_eq in H1. apply String.eqb_neq in H2.
    by rewrite H1, H2.
  - intros H1 H2. apply String.eqb_eq in H1. apply String.eqb_eq in H2.
    by rewrite H1, H2.
  - unfold build_table, top_clusters_metrics.
    by rewrite length_fmap, length_cluster_names, length_nlargest.
  - unfold build_figure; cbn [fig_clusters].
    by rewrite length_cluster_names, top_clusters_map_eq, length_nlargest.
Qed.

(** C8, as stated, fails: on the same table, with the same controls, the
    metrics table has four rows without a filter and three with a city
    selected. *)
Lemma ranked_table_varies_with_filters :
  let run filters_dict :=
    shown_table_ids (snd (render_dbscan_page Sklearn.fit_predict 0%nat filters_dict
      {| eps := 1 # 10; min_samples := 1; show_outliers := true |}
      (world_of scattered_table))) in
  run no_filter = [[0; 1; 2; 3]] /\ run city_filter = [[0; 1; 2]].
Proof. vm_compute. done. Qed.

(** ** The claims on sample tables *)

(** C3: the table with one located and one unlocated crash. *)
Lemma clustering_raises_on_partly_located_sample :
  apply_dbscan_clustering Sklearn.fit_predict 0%nat (1 # 10) 1
    (world_of partly_located_table)
  = (Raise (ValueError_length 1 2), world_of partly_located_table).
Proof.
  apply (clustering_raises_on_partly_located_table Sklearn.fit_predict 0%nat
           (1 # 10) 1 (world_of partly_located_table) (raw_frame partly_located_table)).
  - apply SklearnFacts.fit_predict_length.
  - reflexivity.
  - vm_compute. discriminate.
  - vm_compute. lia.
Defined.

(** C6: the table without coordinates. *)
Lemma no_valid_points_signalled_sample :
  apply_dbscan_clustering Sklearn.fit_predict 0%nat (1 # 10) 2 (world_of unlocated_table)
  = (Ok 0%nat, shown [no_valid_points] (world_of unlocated_table)) /\
  render_dbscan_page Sklearn.fit_predict 0%nat no_filter (sample_controls true)
    (world_of unlocated_table)
  = (Ok tt, shown [no_valid_points; clustering_failed] (world_of unlocated_table)).
Proof.
  apply (no_valid_points_signalled Sklearn.fit_predict 0%nat no_filter
           (sample_controls true) (world_of unlocated_table) (raw_frame unlocated_table)).
  - reflexivity.
  - reflexivity.
  - left. reflexivity.
Defined.



(** C9, as stated, fails: after the step the caller's own table carries a
    [cluster] column that it did not have. *)
Lemma clustering_changes_the_callers_table :
  let w := world_of sample_table in
  let w' := snd (apply_dbscan_clustering Sklearn.fit_predict 0%nat (1 # 10) 2 w) in
  (col_cluster <$> heap w !! 0%nat) = Some None /\
  (col_cluster <$> heap w' !! 0%nat) = Some (Some [0; 0; -1; -1]) /\
  heap w' !! 0%nat <> heap w !! 0%nat.
Proof. vm_compute. repeat split; discriminate. Qed.

(** The step on the sample table: the two close crashes form cluster 0, the
    two isolated ones are noise. *)
Example sample_clustering :
  apply_dbscan_clustering Sklearn.fit_predict 0%nat (1 # 10) 2 (world_of sample_table)
  = (Ok 0%nat, stored 0%nat sample_labelled (world_of sample_table)).
Proof. vm_compute. reflexivity. Qed.

(** C10: the two isolated crashes of the sample table, with 2 and 3
    fatalities, both carry the sum 5. *)
Lemma noise_annotated_as_one_cluster_sample :
  (col_fatalities sample_labelled ≫= fun col => col !! 2%nat) = Some 5 /\
  (col_zone_label sample_labelled ≫= fun col => col !! 2%nat) = Some "Low Danger" /\
  (col_zone_color sample_labelled ≫= fun col => col !! 2%nat) = Some "green".
Proof.
  apply (noise_annotated_as_one_cluster Sklearn.fit_predict 0%nat (1 # 10) 2
           (world_of sample_table) (stored 0%nat sample_labelled (world_of sample_table))
           (raw_frame sample_table) sample_labelled [0; 0; -1; -1] 2%nat).
  - reflexivity.
  - reflexivity.
  - vm_compute. reflexivity.
  - reflexivity.
  - reflexivity.
  - reflexivity.
  - unfold in_int64. vm_compute. by split.
Defined.



(** The sums of the step are int64 sums: two fatality counts of [2 ^ 62]
    in one cluster add up to [- 2 ^ 63], "Low Danger". *)
Example fatalities_wrap_around :
  transform_sum [0; 0] [2 ^ 62; 2 ^ 62] = [- 2 ^ 63; - 2 ^ 63] /\
  categorize_zone (- 2 ^ 63) = ("Low Danger", "green").
Proof. vm_compute. done. Qed.

(** * Further properties of the DBSCAN page *)

(** ** The summaries partition the rows *)

Lemma group_insert_totals {A} (h : A -> Z) k x (gs : list (group A)) :
  sum_Z ((fun g => sum_Z (h <$> g_members g)) <$> group_insert k x gs)
  = h x + sum_Z ((fun g => sum_Z (h <$> g_members g)) <$> gs).
Proof.
  induction gs as [|g gs IH]; cbn [group_insert].
  - simpl. lia.
  - destruct (k <? g_key g); [simpl; lia|].
    destruct (k =? g_key g); [simpl; lia|].
    rewrite !fmap_cons. cbn [sum_Z foldr]. fold (sum_Z (h <$> g_members g)).
    change (foldr Z.add 0 ?l) with (sum_Z l). rewrite IH. lia.
Qed.

Lemma groupby_totals {A} (h : A -> Z) (key : A -> Z) (rows : list A) :
  sum_Z ((fun g => sum_Z (h <$> g_members g)) <$> groupby key rows)
  = sum_Z (h <$> rows).
Proof.
  induction rows as [|r rows IH]; [done|].
  cbn [groupby foldr]. rewrite group_insert_totals.
  change (foldr _ [] rows) with (groupby key rows). rewrite IH. done.
Qed.

Lemma summaries_fatalities (rows : list ClusteredCrash) :
  mt_fatalities <$> cluster_summary_metrics rows
  = wrap64 <$> ((fun g => sum_Z ((fun r => FATALS (cc_crash r)) <$> g_members g))
                <$> groupby cc_cluster rows).
Proof.
  unfold cluster_summary_metrics. rewrite <- !list_fmap_compose.
  apply list_fmap_ext. intros _ g _.
  exact (int64_sum_eq ((fun r => FATALS (cc_crash r)) <$> g_members g)).
Qed.

(** X1. Whatever rows the rendering receives, the metrics summaries share
    them out, the noise group included.  Their crash counts add up to the
    number of rows.  Their fatalities add up to the sum of the fatality
    counts of all rows: exactly, when no count is negative and the sum of
    all lies in the int64 range, and up to the wrap-around of an int64 in
    any case. *)
Theorem summaries_partition_rows (rows : list ClusteredCrash) :
  let fatals := (fun r => FATALS (cc_crash r)) <$> rows in
  sum_list (mt_crashes <$> cluster_summary_metrics rows) = length rows /\
  wrap64 (sum_Z (mt_fatalities <$> cluster_summary_metrics rows)) = wrap64 (sum_Z fatals) /\
  (Forall (fun x => 0 <= x) fatals -> in_int64 (sum_Z fatals) ->
   sum_Z (mt_fatalities <$> cluster_summary_metrics rows) = sum_Z fatals).
Proof.
  intros fatals.
  pose proof (groupby_totals (fun r => FATALS (cc_crash r)) cc_cluster rows) as Htotals.
  fold fatals in Htotals.
  split; [|split].
  - unfold cluster_summary_metrics. rewrite <- !list_fmap_compose.
    change (mt_crashes ∘ _) with (fun g : group ClusteredCrash => length (g_members g)).
    apply groupby_sizes.
  - by rewrite summaries_fatalities, wrap64_sum_wrap64, Htotals.
  - intros Hnonneg Hfits. rewrite summaries_fatalities, <- Htotals.
    f_equal. rewrite <- (list_fmap_id (_ <$> groupby cc_cluster rows)) at 2.
    apply list_fmap_ext. intros i x Hx. apply list_elem_of_lookup_2 in Hx.
    apply wrap64_exact.
    assert (0 <= x <= sum_Z fatals) as Hterm; [|unfold in_int64, id in *; lia].
    rewrite <- Htotals. apply sum_Z_term; [|done].
    apply Forall_forall. intros y Hy.
    apply list_elem_of_fmap in Hy as (g & -> & Hg).
    apply sum_Z_nonneg, Forall_forall. intros z Hz.
    apply list_elem_of_fmap in Hz as (r & -> & Hr).
    rewrite (groupby_members cc_cluster g rows Hg) in Hr.
    apply list_elem_of_In, filter_In in Hr as [Hr _].
    rewrite Forall_forall in Hnonneg. apply Hnonneg.
    apply list_elem_of_fmap. exists r. split; [done|by apply list_elem_of_In].
Qed.

(** ** The classifier and the colours *)

(** X2. The classifier is monotone: a larger fatality sum never gets a
    lower tier. *)
Theorem categorize_zone_monotone (f1 f2 : Z) :
  f1 <= f2 ->
  (tier_rank (fst (categorize_zone f1)) <= tier_rank (fst (categorize_zone f2)))%nat.
Proof.
  intros Hle. unfold categorize_zone.
  destruct (100 <=? f1) eqn:A1, (100 <=? f2) eqn:A2;
    destruct (50 <=? f1) eqn:B1, (50 <=? f2) eqn:B2;
    destruct (f1 <? 100) eqn:C1, (f2 <? 100) eqn:C2;
    cbn; try lia.
Qed.

Lemma categorize_zone_monotone_sample :
  (tier_rank (fst (categorize_zone 49)) <= tier_rank (fst (categorize_zone 50)))%nat.
Proof. apply categorize_zone_monotone. lia. Defined.

Lemma color_zone_label_categorize_zone (fatalities : Z) :
  color_zone_label (fst (categorize_zone fatalities))
  = "<span style='color:" +:+ snd (categorize_zone fatalities) +:+ "'>"
    +:+ fst (categorize_zone fatalities) +:+ "</span>".
Proof.
  unfold categorize_zone.
  destruct (100 <=? fatalities); [reflexivity|].
  destruct ((50 <=? fatalities) && (fatalities <? 100)); reflexivity.
Qed.

Lemma metrics_summary_of_annotated_rows total rows m :
  Forall (fun r => r = annotate total (cc_crash r) (cc_cluster r)) rows ->
  m ∈ cluster_summary_metrics rows ->
  mt_zone_label m = fst (categorize_zone (total (mt_cluster m))).
Proof.
  intros Hann Hm. unfold cluster_summary_metrics in Hm.
  apply list_elem_of_fmap in Hm as (g & -> & Hg). cbn.
  pose proof (groupby_members cc_cluster g rows Hg) as Hmem.
  assert (In (g_first g) (List.filter (fun r => cc_cluster r =? g_key g) rows)) as Hin.
  { rewrite <- Hmem. by left. }
  apply filter_In in Hin as [Hin Hk].
  rewrite Forall_forall in Hann. apply list_elem_of_In, Hann in Hin.
  assert (cc_cluster (g_first g) = g_key g) as Hk' by lia.
  rewrite Hin. cbn. by rewrite Hk'.
Qed.

(** X3. The colours of the two columns agree: in the metrics table of a
    table annotated by the clustering step, the zone cell of every row is
    the zone label wrapped in a span of the very colour that the classifier
    gives the map marker of the same fatality sum. *)
Theorem table_zone_colour_agrees_with_map total rows top_n name m :
  Forall (fun r => r = annotate total (cc_crash r) (cc_cluster r)) rows ->
  (name, m) ∈ build_table top_n rows ->
  let zone := categorize_zone (total (mt_cluster m)) in
  mt_zone_label m
  = "<span style='color:" +:+ snd zone +:+ "'>" +:+ fst zone +:+ "</span>".
Proof.
  intros Hann Hin zone. unfold build_table in Hin.
  apply list_elem_of_fmap in Hin as ([name0 m0] & Heq & Hin).
  cbn in Heq. injection Heq as -> ->.
  unfold cluster_names in Hin. apply list_elem_of_lookup in Hin as [i Hi].
  rewrite list_lookup_imap in Hi.
  destruct (top_clusters_metrics top_n rows !! i) as [m1|] eqn:Hm1; [|done].
  cbn in Hi. injection Hi as _ <-.
  apply list_elem_of_lookup_2 in Hm1. apply nlargest_elem in Hm1.
  cbn [with_colored_label mt_zone_label mt_cluster].
  rewrite (metrics_summary_of_annotated_rows total rows m1 Hann Hm1).
  apply color_zone_label_categorize_zone.
Qed.

Lemma table_zone_colour_agrees_sample :
  mt_zone_label
    {| mt_cluster := 0; mt_crashes := 2; mt_fatalities := 110;
       mt_zone_label := "<span style='color:red'>Danger</span>" |}
  = "<span style='color:red'>Danger</span>".
Proof.
  apply (table_zone_colour_agrees_with_map
           (fun c => fatality_sum c [0; 0; -1; -1] sample_table)
           (zip_with (annotate (fun c => fatality_sum c [0; 0; -1; -1] sample_table))
              sample_table [0; 0; -1; -1])
           10 "Cluster 2").
  - apply zip_with_annotate_Forall.
  - vm_compute. apply list_elem_of_further, list_elem_of_here.
Defined.

(** ** Display names *)

Lemma imap_fst_seq {A B} (g : nat -> B) (l : list A) :
  fst <$> imap (fun i c => (g i, c)) l = g <$> seq 0 (length l).
Proof.
  revert g. induction l as [|x l IH]; intros g; [done|].
  cbn [imap length seq]. rewrite !fmap_cons. f_equal.
  rewrite <- fmap_S_seq, <- list_fmap_compose. apply (IH (g ∘ S)).
Qed.

Lemma imap_snd {A B} (g : nat -> B) (l : list A) :
  snd <$> imap (fun i c => (g i, c)) l = l.
Proof.
  revert g. induction l as [|x l IH]; intros g; [done|].
  cbn [imap]. rewrite fmap_cons. f_equal. apply (IH (g ∘ S)).
Qed.

(** X4. The display names go by position in the ranking, not by cluster
    id: the summary at position [i] is named "Cluster i+1", the selection and
    its order are as ranked, and no two summaries share a name. *)
Theorem cluster_names_by_position {A} (top_clusters : list A) :
  snd <$> cluster_names top_clusters = top_clusters /\
  (forall i c, top_clusters !! i = Some c ->
     cluster_names top_clusters !! i = Some ("Cluster " +:+ pretty (S i), c)) /\
  NoDup (fst <$> cluster_names top_clusters).
Proof.
  unfold cluster_names. split; [apply imap_snd|]. split.
  - intros i c Hi. by rewrite list_lookup_imap, Hi.
  - rewrite (imap_fst_seq (fun i => "Cluster " +:+ pretty (S i))).
    apply NoDup_fmap_2; [|apply NoDup_seq].
    intros i j Heq. apply (inj (String.app "Cluster ")) in Heq.
    apply (inj pretty) in Heq. lia.
Qed.

(** ** The trace of outliers *)



(** ** Running the step and the page again *)

Section rerun_facts.
Variable fit_predict : Q -> Z -> list (Q * Q) -> result (list Z).
Context {group_mean : FloatMean}.

(** X7. Running the clustering step again on the table it has just worked
    on, with the same parameters, has the same outcome and leaves every
    table as the first run left it: the columns of the first run do not
    feed into the second. *)
Theorem apply_dbscan_clustering_again df eps ms w r w' :
  apply_dbscan_clustering fit_predict df eps ms w = (r, w') ->
  exists w'', apply_dbscan_clustering fit_predict df eps ms w' = (r, w'') /\
              heap w'' = heap w'.
Proof.
  rewrite !apply_dbscan_clustering_eq.
  destruct (heap w !! df) as [f|] eqn:Hf.
  - destruct (dropna (crashes f)) as [|p ps] eqn:Hc.
    + intros [= <- <-]. cbn [shown heap]. rewrite Hf, Hc. eauto.
    + destruct (fit_predict eps ms (p :: ps)) as [labels|e] eqn:Hfit.
      * destruct (length labels =? length (crashes f))%nat eqn:Hlen.
        -- intros [= <- <-]. cbn [stored heap]. rewrite lookup_insert_eq.
           change (crashes (clustered f labels)) with (crashes f).
           rewrite Hc, Hfit, Hlen. eexists. split; [reflexivity|].
           cbn. by rewrite insert_insert_eq.
        -- intros [= <- <-]. rewrite Hf, Hc, Hfit, Hlen. eauto.
      * intros [= <- <-]. rewrite Hf, Hc, Hfit. eauto.
  - intros [= <- <-]. rewrite Hf. eauto.
Qed.

Lemma page_shows_crashes f f' filters_dict controls :
  crashes f' = crashes f ->
  page_shows fit_predict f' filters_dict controls
  = page_shows fit_predict f filters_dict controls.
Proof. intros H. unfold page_shows. by rewrite H. Qed.

(** The page, in all its cases. *)
Lemma render_dbscan_page_shows filtered filters_dict controls w f :
  heap w !! filtered = Some f ->
  unlabelled_if_unlocated f ->
  exists w' f',
    render_dbscan_page fit_predict filtered filters_dict controls w
    = (fst (page_shows fit_predict f filters_dict controls), w') /\
    screen w' = screen w ++ snd (page_shows fit_predict f filters_dict controls) /\
    (forall e, fst (page_shows fit_predict f filters_dict controls) = Raise e -> w' = w) /\
    heap w' !! filtered = Some f' /\
    crashes f' = crashes f /\
    unlabelled_if_unlocated f'.
Proof.
  intros Hf Hinv. unfold page_shows.
  destruct (crashes f) as [|r rs] eqn:Hrows.
  - exists (shown [no_data_points] w), f.
    split; [|by repeat split].
    unfold render_dbscan_page. rewrite M_bind_eq. unfold read at 1.
    by rewrite Hf, Hrows.
  - assert ((length (crashes f) =? 0)%nat = false) as Hnonempty by (by rewrite Hrows).
    destruct (dropna (r :: rs)) as [|p ps] eqn:Hc.
    + exists (shown [no_valid_points; clustering_failed] w), f.
      split; [|by repeat split].
      assert (col_cluster f = None) as Hraw
        by (apply Hinv; [by rewrite Hrows|by rewrite Hrows]).
      unfold render_dbscan_page. rewrite M_bind_eq. unfold read at 1.
      rewrite Hf, Hnonempty, M_bind_eq, apply_dbscan_clustering_eq, Hf, Hrows, Hc.
      rewrite M_bind_eq. unfold read, shown; cbn [heap]. rewrite Hf, Hraw.
      rewrite show_eq. unfold shown; cbn. by rewrite <- app_assoc.
    + destruct (fit_predict (eps controls) (min_samples controls) (p :: ps))
        as [labels|e] eqn:Hfit.
      * destruct (length labels =? length (r :: rs))%nat eqn:Hlen.
        -- apply Nat.eqb_eq in Hlen. rewrite <- Hrows in Hlen.
           destruct (render_dbscan_page_clustered fit_predict filtered filters_dict
                       controls w f labels Hf) as (w' & Hpage & Hheap & Hscreen).
           { by rewrite Hrows, Hc. }
           { by rewrite Hrows, Hc. }
           { done. }
           exists w', (clustered f labels). rewrite <- Hrows.
           split; [done|]. split; [done|]. split; [done|]. split; [done|].
           split; [done|]. intros Hnone. cbn [clustered crashes] in Hnone.
           rewrite Hrows, Hc in Hnone. done.
        -- exists w, f. rewrite app_nil_r.
           split; [|by repeat split].
           unfold render_dbscan_page. rewrite M_bind_eq. unfold read at 1.
           rewrite Hf, Hnonempty, M_bind_eq, apply_dbscan_clustering_eq, Hf, Hrows, Hc.
           rewrite Hfit. rewrite <- Hrows at 1. by rewrite Hrows, Hlen.
      * exists w, f. rewrite app_nil_r.
        split; [|by repeat split].
        unfold render_dbscan_page. rewrite M_bind_eq. unfold read at 1.
        by rewrite Hf, Hnonempty, M_bind_eq, apply_dbscan_clustering_eq, Hf, Hrows, Hc, Hfit.
Qed.

(** X8. The outcome of the page and what it shows are determined by the
    input columns of the table, the filters and the controls
    ([page_shows]); columns attached by an earlier run play no part.  So
    running the page again on the table it has just labelled has the same
    outcome and shows the same map and metrics once more. *)
Theorem render_dbscan_page_again filtered filters_dict controls w f :
  heap w !! filtered = Some f ->
  unlabelled_if_unlocated f ->
  exists w1 w2,
    let r := fst (page_shows fit_predict f filters_dict controls) in
    let out := snd (page_shows fit_predict f filters_dict controls) in
    render_dbscan_page fit_predict filtered filters_dict controls w = (r, w1) /\
    screen w1 = screen w ++ out /\
    render_dbscan_page fit_predict filtered filters_dict controls w1 = (r, w2) /\
    screen w2 = screen w1 ++ out.
Proof.
  intros Hf Hinv.
  destruct (render_dbscan_page_shows filtered filters_dict controls w f Hf Hinv)
    as (w1 & f1 & Hpage1 & Hscreen1 & _ & Hf1 & Hcr & Hinv1).
  destruct (render_dbscan_page_shows filtered filters_dict controls w1 f1 Hf1 Hinv1)
    as (w2 & f2 & Hpage2 & Hscreen2 & _).
  rewrite (page_shows_crashes f f1 _ _ Hcr) in Hpage2, Hscreen2.
  by exists w1, w2.
Qed.

(** X9. The page does not handle the failure of the step on a table with
    some but not all records located: the length error of the column
    assignment is the outcome of the page, nothing is shown and no table is
    changed. *)
Theorem render_dbscan_page_raises_on_partly_located_table
    filtered filters_dict controls w f :
  (forall e m X labels, fit_predict e m X = Ok labels -> length labels = length X) ->
  heap w !! filtered = Some f ->
  dropna (crashes f) <> [] ->
  length (dropna (crashes f)) <> length (crashes f) ->
  render_dbscan_page fit_predict filtered filters_dict controls w =
  (Raise match fit_predict (eps controls) (min_samples controls) (dropna (crashes f)) with
         | Ok _ => ValueError_length (length (dropna (crashes f))) (length (crashes f))
         | Raise e => e
         end, w).
Proof.
  intros Hcontract Hf Hne Hpartly.
  destruct (render_dbscan_page_shows filtered filters_dict controls w f Hf)
    as (w' & f' & Hpage & _ & Hraise & _).
  { intros Hnone. done. }
  rewrite Hpage. unfold page_shows in *.
  destruct (crashes f) as [|r rs] eqn:Hrows; [by destruct Hne|].
  destruct (dropna (r :: rs)) as [|p ps] eqn:Hc; [done|].
  destruct (fit_predict (eps controls) (min_samples controls) (p :: ps))
    as [labels|e] eqn:Hfit.
  - pose proof (Hcontract _ _ _ _ Hfit) as Hlen. rewrite Hlen in *.
    destruct (length (p :: ps) =? length (r :: rs))%nat eqn:E.
    + apply Nat.eqb_eq in E. done.
    + cbn [fst] in *. by rewrite (Hraise _ eq_refl).
  - cbn [fst] in *. by rewrite (Hraise _ eq_refl).
Qed.

End rerun_facts.

(** X10. With the values that the sidebar sliders can give ([eps] from 0.02
    to 0.5, [min_samples] from 1 to 20) and a non-empty table whose records
    all have coordinates, the page with scikit-learn's DBSCAN raises nothing:
    every record is labelled and, with Show Outliers on, the map, the
    "Top N" line and the metrics table are shown. *)
Theorem render_dbscan_page_completes {group_mean : FloatMean}
    filtered filters_dict controls w f :
  in_slider_range controls ->
  heap w !! filtered = Some f ->
  crashes f <> [] ->
  length (dropna (crashes f)) = length (crashes f) ->
  exists w' labels,
    render_dbscan_page Sklearn.fit_predict filtered filters_dict controls w = (Ok tt, w') /\
    heap w' !! filtered = Some (clustered f labels) /\
    length labels = length (crashes f) /\
    (show_outliers controls = true ->
     screen w' = screen w ++
       page_output filters_dict true
         (zip_with (annotate (fun c => fatality_sum c labels (crashes f)))
            (crashes f) labels)).
Proof.
  intros (Heps & _ & Hms & _) Hf Hne Hall.
  assert (dropna (crashes f) <> []) as Hcoords.
  { intros Hnil. rewrite Hnil in Hall. destruct (crashes f); [done|]. simpl in Hall. lia. }
  assert (exists labels, Sklearn.fit_predict (eps controls) (min_samples controls)
            (dropna (crashes f)) = Ok labels) as [labels Hfit].
  { unfold Sklearn.fit_predict.
    destruct (Qle_bool (eps controls) 0) eqn:E1.
    - apply Qle_bool_iff in E1. lra.
    - destruct (min_samples controls <? 1) eqn:E2; [lia|]. eauto. }
  pose proof (SklearnFacts.fit_predict_length _ _ _ _ Hfit) as Hlen.
  rewrite Hall in Hlen.
  destruct (render_dbscan_page_clustered Sklearn.fit_predict filtered filters_dict
              controls w f labels Hf Hcoords Hfit Hlen) as (w' & Hpage & Hheap & Hscreen).
  exists w', labels. split; [done|]. split; [done|]. split; [done|].
  intros Hshow. by rewrite Hshow in Hscreen.
Qed.

(** ** Hiding the outliers *)

Lemma mask_rows_filter (cl : list Z) :
  mask_rows ((fun c => negb (is_noise c)) <$> cl) cl
  = List.filter (fun c => negb (is_noise c)) cl.
Proof.
  induction cl as [|c cl IH]; [done|].
  rewrite fmap_cons, mask_rows_cons. simpl.
  destruct (negb (is_noise c)); by rewrite IH.
Qed.

(** X11. Hiding the outliers, on any table with its four attached columns:
    the new table has exactly the rows not labelled -1, whole and in table
    order, its columns are still aligned, and no label -1 is left in it. *)
Theorem drop_noise_removes_exactly_noise (f : DataFrame) (rows : list ClusteredCrash) :
  columns_aligned f ->
  rows_of f = Ok rows ->
  exists f',
    drop_noise f = Ok f' /\
    rows_of f' = Ok (List.filter keeps_noise_out rows) /\
    columns_aligned f' /\
    (forall cl, col_cluster f' = Some cl -> (-1) ∉ cl).
Proof.
  intros (Hcl & Hfa & Hzl & Hzc) Hrows. unfold rows_of in Hrows.
  destruct (col_cluster f) as [cl|] eqn:Ecl; [|done].
  destruct (col_fatalities f) as [fa|] eqn:Efa; [|done].
  destruct (col_zone_label f) as [zl|] eqn:Ezl; [|done].
  destruct (col_zone_color f) as [zc|] eqn:Ezc; [|done].
  injection Hrows as <-.
  specialize (Hcl _ eq_refl). specialize (Hfa _ eq_refl).
  specialize (Hzl _ eq_refl). specialize (Hzc _ eq_refl).
  unfold drop_noise. rewrite Ecl, Efa, Ezl, Ezc. eexists. split; [reflexivity|].
  split; [|split].
  - unfold rows_of; cbn. f_equal. by apply clustered_rows_mask.
  - unfold columns_aligned; cbn.
    repeat split; intros ? [= <-]; apply mask_rows_length; congruence.
  - cbn. intros ? [= <-]. rewrite mask_rows_filter. intros Hin.
    apply list_elem_of_In, filter_In in Hin as [_ Hk]. done.
Qed.

Lemma drop_noise_removes_exactly_noise_sample :
  exists f',
    drop_noise sample_labelled = Ok f' /\
    rows_of f' = Ok (List.filter keeps_noise_out
      (zip_with (annotate (fun c => fatality_sum c [0; 0; -1; -1] sample_table))
         sample_table [0; 0; -1; -1])) /\
    columns_aligned f' /\
    (forall cl, col_cluster f' = Some cl -> (-1) ∉ cl).
Proof.
  apply (drop_noise_removes_exactly_noise sample_labelled).
  - repeat split; intros ? [= <-]; reflexivity.
  - vm_compute. reflexivity.
Defined.

(** ** The step, the page and the sliders on the sample tables *)

Lemma apply_dbscan_clustering_again_sample :
  exists w'',
    apply_dbscan_clustering Sklearn.fit_predict 0%nat (1 # 10) 2
      (stored 0%nat sample_labelled (world_of sample_table))
    = (Ok 0%nat, w'') /\
    heap w'' = heap (stored 0%nat sample_labelled (world_of sample_table)).
Proof.
  apply (apply_dbscan_clustering_again Sklearn.fit_predict 0%nat (1 # 10) 2
           (world_of sample_table)).
  vm_compute. reflexivity.
Defined.

Lemma render_dbscan_page_again_sample :
  exists w1 w2,
    let r := fst (page_shows Sklearn.fit_predict (raw_frame sample_table) no_filter
                    (sample_controls true)) in
    let out := snd (page_shows Sklearn.fit_predict (raw_frame sample_table) no_filter
                      (sample_controls true)) in
    render_dbscan_page Sklearn.fit_predict 0%nat no_filter (sample_controls true)
      (world_of sample_table) = (r, w1) /\
    screen w1 = screen (world_of sample_table) ++ out /\
    render_dbscan_page Sklearn.fit_predict 0%nat no_filter (sample_controls true) w1
    = (r, w2) /\
    screen w2 = screen w1 ++ out.
Proof.
  apply (render_dbscan_page_again Sklearn.fit_predict 0%nat no_filter
           (sample_controls true) (world_of sample_table) (raw_frame sample_table)).
  - reflexivity.
  - intros _ _. reflexivity.
Defined.

Lemma render_dbscan_page_raises_on_partly_located_sample :
  render_dbscan_page Sklearn.fit_predict 0%nat no_filter
    {| eps := 1 # 10; min_samples := 1; show_outliers := true |}
    (world_of partly_located_table)
  = (Raise (ValueError_length 1 2), world_of partly_located_table).
Proof.
  apply (render_dbscan_page_raises_on_partly_located_table Sklearn.fit_predict 0%nat
           no_filter {| eps := 1 # 10; min_samples := 1; show_outliers := true |}
           (world_of partly_located_table) (raw_frame partly_located_table)).
  - apply SklearnFacts.fit_predict_length.
  - reflexivity.
  - vm_compute. discriminate.
  - vm_compute. lia.
Defined.

Lemma render_dbscan_page_completes_sample :
  exists w' labels,
    render_dbscan_page Sklearn.fit_predict 0%nat no_filter (sample_controls true)
      (world_of sample_table) = (Ok tt, w') /\
    heap w' !! 0%nat = Some (clustered (raw_frame sample_table) labels) /\
    length labels = length sample_table /\
    (show_outliers (sample_controls true) = true ->
     screen w' = screen (world_of sample_table) ++
       page_output no_filter true
         (zip_with (annotate (fun c => fatality_sum c labels sample_table))
            sample_table labels)).
Proof.
  apply (render_dbscan_page_completes 0%nat no_filter (sample_controls true)
           (world_of sample_table) (raw_frame sample_table)).
  - unfold in_slider_range. cbn. repeat split; try lia; unfold Qle; simpl; lia.
  - reflexivity.
  - discriminate.
  - reflexivity.
Defined.

(** * The heat-map page *)

Module HeatmapFacts.
Import Heatmap.

(** ** Clipping *)

Lemma foldr_min_le x l y : y ∈ x :: l -> foldr Z.min x l <= y.
Proof.
  induction l as [|a l IH]; simpl; intros H.
  - apply elem_of_cons in H as [->|H]; [lia|by apply elem_of_nil in H].
  - assert (y = a \/ y ∈ x :: l) as [->|H'].
    { apply elem_of_cons in H as [->|H]; [right; apply list_elem_of_here|].
      apply elem_of_cons in H as [->|H]; [by left|right; by apply list_elem_of_further]. }
    + lia.
    + specialize (IH H'). lia.
Qed.

Lemma foldr_max_ge x l y : y ∈ x :: l -> y <= foldr Z.max x l.
Proof.
  induction l as [|a l IH]; simpl; intros H.
  - apply elem_of_cons in H as [->|H]; [lia|by apply elem_of_nil in H].
  - assert (y = a \/ y ∈ x :: l) as [->|H'].
    { apply elem_of_cons in H as [->|H]; [right; apply list_elem_of_here|].
      apply elem_of_cons in H as [->|H]; [by left|right; by apply list_elem_of_further]. }
    + lia.
    + specialize (IH H'). lia.
Qed.

Lemma foldr_min_elem x l : foldr Z.min x l ∈ x :: l.
Proof.
  induction l as [|a l IH]; simpl; [apply list_elem_of_here|].
  destruct (Z.min_spec a (foldr Z.min x l)) as [[_ ->]|[_ ->]].
  - apply list_elem_of_further, list_elem_of_here.
  - apply elem_of_cons in IH as [->|IH]; [apply list_elem_of_here|].
    by apply list_elem_of_further, list_elem_of_further.
Qed.

Lemma foldr_max_elem x l : foldr Z.max x l ∈ x :: l.
Proof.
  induction l as [|a l IH]; simpl; [apply list_elem_of_here|].
  destruct (Z.max_spec a (foldr Z.max x l)) as [[_ ->]|[_ ->]].
  - apply elem_of_cons in IH as [->|IH]; [apply list_elem_of_here|].
    by apply list_elem_of_further, list_elem_of_further.
  - apply list_elem_of_further, list_elem_of_here.
Qed.

Lemma clip_own_bounds (l : list Z) :
  clip (series_min l) (series_max l) <$> l = l.
Proof.
  destruct l as [|x l]; [done|]. cbn [series_min series_max].
  transitivity (id <$> (x :: l)); [|apply list_fmap_id].
  apply list_fmap_ext. intros i y Hy. apply list_elem_of_lookup_2 in Hy.
  pose proof (foldr_min_le x l y Hy). pose proof (foldr_max_ge x l y Hy).
  unfold clip.
  destruct (foldr Z.min x l <=? y) eqn:E1; [|lia].
  destruct (y <=? foldr Z.max x l) eqn:E2; [done|lia].
Qed.

Lemma zip_with_own_column {A B C} (h : A -> B) (k : A -> B -> C) (l : list A) :
  zip_with k l (h <$> l) = (fun r => k r (h r)) <$> l.
Proof.
  induction l as [|r l IH]; [done|].
  rewrite !fmap_cons. cbn [zip_with]. by rewrite IH.
Qed.

(** X12. [build_hotspot_figure] clips to the smallest and largest fatality
    count of the table itself, which clips nothing: the column
    [FATALS_CLIPPED] that it attaches to the caller's table repeats
    [FATALS], the heat map weighs every crash by its own fatality count,
    and the rows of the table are left as they were. *)
Theorem clipping_changes_nothing {series_mean : FloatMean} (df : HeatFrame)
    (filters_dict : Filters) (overlay : bool) :
  rows (snd (build_hotspot_figure df filters_dict overlay)) = rows df /\
  col_FATALS_CLIPPED (snd (build_hotspot_figure df filters_dict overlay))
  = Some (fatals_of <$> rows df) /\
  density (fst (build_hotspot_figure df filters_dict overlay))
  = (fun r => (lat_of r, lon_of r, fatals_of r)) <$> rows df.
Proof.
  unfold build_hotspot_figure.
  destruct (if negb (String.eqb (city filters_dict) "All cities") then _ else _)
    as [[lat lon] z].
  cbn [fst snd rows col_FATALS_CLIPPED density].
  rewrite clip_own_bounds. split; [done|]. split; [done|].
  apply (zip_with_own_column fatals_of (fun r z => (lat_of r, lon_of r, z))).
Qed.

(** ** The centre of the map *)


(** ** Numerals *)

Lemma pretty_N_char_numeral x : In (pretty_N_char x) numeral_chars.
Proof. unfold pretty_N_char. repeat case_match; simpl; tauto. Qed.

Lemma pretty_N_go_chars x s :
  Forall (fun a => In a numeral_chars) (String.list_ascii_of_string s) ->
  Forall (fun a => In a numeral_chars) (String.list_ascii_of_string (pretty_N_go x s)).
Proof.
  revert s. induction (N.lt_wf_0 x) as [x _ IH]; intros s Hs.
  assert (x = 0 \/ 0 < x)%N as [->|Hpos] by lia.
  - by rewrite pretty_N_go_0.
  - rewrite pretty_N_go_step by done. apply IH; [by apply N.div_lt|].
    simpl. constructor; [apply pretty_N_char_numeral|done].
Qed.

Lemma pretty_positive_chars (p : positive) :
  Forall (fun a => In a numeral_chars) (String.list_ascii_of_string (pretty p)).
Proof.
  unfold pretty, pretty_positive, pretty, pretty_N.
  case_decide; [done|]. apply pretty_N_go_chars. constructor.
Qed.

Lemma pretty_Z_chars (z : Z) :
  Forall (fun a => In a numeral_chars) (String.list_ascii_of_string (pretty z)).
Proof.
  destruct z as [|p|p]; unfold pretty, pretty_Z.
  - repeat constructor.
  - apply pretty_positive_chars.
  - simpl. constructor; [simpl; tauto|apply pretty_positive_chars].
Qed.

Lemma list_ascii_of_string_app s1 s2 :
  String.list_ascii_of_string (s1 +:+ s2)
  = String.list_ascii_of_string s1 ++ String.list_ascii_of_string s2.
Proof. induction s1 as [|a s1 IH]; simpl; [done|]. by rewrite IH. Qed.

Lemma filter_group_thousands (l : list ascii) :
  Forall (fun a => a <> ","%char) l ->
  List.filter (fun a => negb (Ascii.eqb a ","%char)) (group_thousands l) = l.
Proof.
  assert (forall n (l : list ascii), (length l <= n)%nat ->
            Forall (fun a => a <> ","%char) l ->
            List.filter (fun a => negb (Ascii.eqb a ","%char)) (group_thousands l) = l)
    as H; [|by apply (H (length l))].
  clear l. induction n as [|n IH]; intros l Hlen Hl.
  - destruct l; [done|simpl in Hlen; lia].
  - assert (forall l', Forall (fun a => a <> ","%char) l' ->
              List.filter (fun a => negb (Ascii.eqb a ","%char)) l' = l') as Hid.
    { induction 1 as [|a l' Ha _ IH']; [done|]. simpl.
      apply Ascii.eqb_neq in Ha. by rewrite Ha, IH'. }
    destruct l as [|a [|b [|c [|d rest]]]]; try (by apply Hid).
    change (group_thousands (a :: b :: c :: d :: rest))
      with (a :: b :: c :: ","%char :: group_thousands (d :: rest)).
    inversion Hl as [|? ? Ha Hl1]; subst. inversion Hl1 as [|? ? Hb Hl2]; subst.
    inversion Hl2 as [|? ? Hc Hl3]; subst.
    apply Ascii.eqb_neq in Ha, Hb, Hc.
    cbn [List.filter]. rewrite Ha, Hb, Hc. cbn [negb].
    rewrite Ascii.eqb_refl. cbn [negb]. do 3 f_equal.
    apply IH; [simpl in *; lia|done].
Qed.

Lemma strip_commas_format_digits s :
  Forall (fun a => In a numeral_chars) (String.list_ascii_of_string s) ->
  strip_commas (format_digits s) = s.
Proof.
  intros Hs. unfold strip_commas, format_digits.
  rewrite String.list_ascii_of_string_of_list_ascii, filter_rev.
  rewrite filter_group_thousands.
  - by rewrite rev_involutive, String.string_of_list_ascii_of_string.
  - apply Forall_rev. eapply Forall_impl; [exact Hs|].
    intros a Ha ->. simpl in Ha. intuition discriminate.
Qed.

(** Taking the commas out of [f"{n:,}"] gives the decimal numeral of [n]. *)
Lemma strip_commas_format_thousands (n : Z) :
  strip_commas (format_thousands n) = pretty n.
Proof.
  destruct n as [|p|p]; [done| |].
  - apply strip_commas_format_digits, pretty_positive_chars.
  - unfold format_thousands.
    change (strip_commas ("-" +:+ ?s)) with ("-" +:+ strip_commas s).
    by rewrite strip_commas_format_digits by apply pretty_positive_chars.
Qed.

(** ** The placeholder *)

Lemma numeral_char_not_148 a : In a numeral_chars -> a <> "148"%char.
Proof. intros Ha ->. simpl in Ha. intuition discriminate. Qed.

Lemma format_thousands_not_dash n : format_thousands n <> "—".
Proof.
  intros H. apply (f_equal strip_commas) in H.
  rewrite strip_commas_format_thousands in H.
  pose proof (pretty_Z_chars n) as Hchars. rewrite H in Hchars.
  apply Forall_inv in Hchars. simpl in Hchars. intuition discriminate.
Qed.

Lemma year_range_not_dash (a b : Z) : pretty a +:+ "–" +:+ pretty b <> "—".
Proof.
  intros H. apply (f_equal String.list_ascii_of_string) in H.
  rewrite !list_ascii_of_string_app in H.
  assert (Forall (fun c => c <> "148"%char)
            (String.list_ascii_of_string (pretty a)
             ++ String.list_ascii_of_string "–"
             ++ String.list_ascii_of_string (pretty b))) as Hall.
  { rewrite !Forall_app. repeat split.
    - eapply Forall_impl; [apply pretty_Z_chars|]. apply numeral_char_not_148.
    - repeat constructor; discriminate.
    - eapply Forall_impl; [apply pretty_Z_chars|]. apply numeral_char_not_148. }
  rewrite H in Hall.
  apply Forall_inv_tail, Forall_inv_tail, Forall_inv in Hall. done.
Qed.

(** ** Thousands separators *)

Lemma pretty_N_go_nonempty x s : s <> "" -> pretty_N_go x s <> "".
Proof.
  revert s. induction (N.lt_wf_0 x) as [x _ IH]; intros s Hs.
  assert (x = 0 \/ 0 < x)%N as [->|Hpos] by lia.
  - by rewrite pretty_N_go_0.
  - rewrite pretty_N_go_step by done. apply IH; [by apply N.div_lt|done].
Qed.

Lemma pretty_positive_nonempty (p : positive) :
  String.list_ascii_of_string (pretty p) <> [].
Proof.
  assert (pretty p <> "") as Hne.
  { unfold pretty, pretty_positive, pretty, pretty_N.
    case_decide; [done|].
    rewrite pretty_N_go_step by lia. by apply pretty_N_go_nonempty. }
  destruct (pretty p); [done|]. done.
Qed.

Lemma rev_three {A} (a b c : A) l : rev (a :: b :: c :: l) = rev l ++ [c; b; a].
Proof. simpl. by rewrite <- !app_assoc. Qed.

Lemma grouped_group_thousands (l : list ascii) :
  l <> [] -> grouped_by_three (rev l) (rev (group_thousands l)).
Proof.
  assert (forall n (l : list ascii), (length l <= n)%nat -> l <> [] ->
            grouped_by_three (rev l) (rev (group_thousands l)))
    as H; [|by apply (H (length l))].
  clear l. induction n as [|n IH]; intros l Hlen Hne.
  - destruct l; [done|simpl in Hlen; lia].
  - destruct l as [|a [|b [|c [|d rest]]]]; [done| | | |];
      try (apply grouped_first; simpl; lia).
    change (group_thousands (a :: b :: c :: d :: rest))
      with (a :: b :: c :: ","%char :: group_thousands (d :: rest)).
    rewrite !rev_three.
    change (rev (","%char :: group_thousands (d :: rest)))
      with (rev (group_thousands (d :: rest)) ++ [","%char]).
    rewrite <- app_assoc.
    apply (grouped_next (rev (d :: rest)) (rev (group_thousands (d :: rest))) c b a).
    apply IH; [simpl in *; lia|done].
Qed.

Lemma format_digits_grouped (p : positive) :
  exists text,
    format_digits (pretty p) = String.string_of_list_ascii text /\
    grouped_by_three (String.list_ascii_of_string (pretty p)) text.
Proof.
  eexists. split; [reflexivity|].
  rewrite <- (rev_involutive (String.list_ascii_of_string (pretty p))) at 1.
  apply grouped_group_thousands.
  intros Hnil. apply (pretty_positive_nonempty p).
  by rewrite <- (rev_involutive (String.list_ascii_of_string (pretty p))), Hnil.
Qed.

(** [f"{n:,}"] is the numeral of [n] with thousands separators. *)
Lemma format_thousands_separated (n : Z) : thousands_separated n (format_thousands n).
Proof.
  unfold thousands_separated.
  destruct n as [|p|p]; cbn [Z.ltb Z.compare Z.abs format_thousands].
  - exists ["0"%char]. split; [done|]. apply grouped_first. simpl. lia.
  - destruct (format_digits_grouped p) as (text & -> & Hg). by exists text.
  - destruct (format_digits_grouped p) as (text & -> & Hg). by exists text.
Qed.

(** ** The metrics panel *)

(** X14. The metrics panel of the heat-map page.  On an empty table only
    the "no crashes" note is shown and the table is not touched.  On any
    other table the chart is followed by exactly three metrics: the number
    of rows and the sum of the fatality counts, each written as a decimal
    numeral with a comma before every group of three digits, and the range
    from the smallest to the largest year of the table.  The sum is the one
    an int64 holds: the exact sum when that lies in the int64 range.  The
    placeholder "—" of the code's last branch is never shown, and the rows
    of the table are left as they were. *)
Theorem metrics_panel {series_mean : FloatMean} (df : HeatFrame)
    (filters_dict : HeatFilters) :
  let out := fst (render_map_and_metrics df filters_dict) in
  let total := sum_Z (fatals_of <$> rows df) in
  (rows df = [] ->
     out = [st_info "No crashes match the current filters."] /\
     snd (render_map_and_metrics df filters_dict) = df) /\
  (rows df <> [] ->
     exists fig crashes fatalities y_min y_max,
       out = [ st_plotly_chart fig;
               st_metric "Total Crashes" crashes;
               st_metric "Total Fatalities" fatalities;
               st_metric "Year Range" (pretty y_min +:+ "–" +:+ pretty y_max) ] /\
       thousands_separated (Z.of_nat (length (rows df))) crashes /\
       strip_commas crashes = pretty (Z.of_nat (length (rows df))) /\
       thousands_separated (wrap64 total) fatalities /\
       strip_commas fatalities = pretty (wrap64 total) /\
       (in_int64 total -> wrap64 total = total) /\
       y_min ∈ (YEAR <$> rows df) /\ y_max ∈ (YEAR <$> rows df) /\
       (forall r, r ∈ rows df -> y_min <= YEAR r <= y_max)) /\
  (forall label, st_metric label "—" ∉ out) /\
  rows (snd (render_map_and_metrics df filters_dict)) = rows df.
Proof.
  unfold render_map_and_metrics.
  destruct (rows df) as [|r rs] eqn:Hrows.
  - cbn [fst snd]. split; [done|]. split; [done|]. split; [|done].
    intros label Hin. apply elem_of_cons in Hin as [Hin|Hin]; [done|].
    by apply elem_of_nil in Hin.
  - unfold build_hotspot_figure.
    destruct (if negb (String.eqb (city (selection filters_dict)) "All cities")
              then _ else _) as [[lat lon] z].
    cbn [rows]. rewrite Hrows, int64_sum_eq. cbn [fst snd app rows].
    split; [done|]. split; [|split; [|done]].
    + intros _. eexists _, _, _, _, _. split; [reflexivity|].
      split; [apply format_thousands_separated|].
      split; [apply strip_commas_format_thousands|].
      split; [apply format_thousands_separated|].
      split; [apply strip_commas_format_thousands|].
      split; [apply wrap64_exact|].
      rewrite fmap_cons.
      split; [apply foldr_min_elem|]. split; [apply foldr_max_elem|].
      intros r' Hr'. apply (list_elem_of_fmap_2 YEAR) in Hr'. rewrite fmap_cons in Hr'.
      split; [by apply foldr_min_le|by apply foldr_max_ge].
    + intros label Hin.
      apply elem_of_cons in Hin as [Hin|Hin]; [done|].
      apply elem_of_cons in Hin as [Hin|Hin].
      { injection Hin as _ Hin. symmetry in Hin.
        exact (format_thousands_not_dash (Z.of_nat (length (r :: rs))) Hin). }
      apply elem_of_cons in Hin as [Hin|Hin].
      { injection Hin as _ Hin. symmetry in Hin.
        exact (format_thousands_not_dash (wrap64 (sum_Z (fatals_of <$> r :: rs))) Hin). }
      apply elem_of_cons in Hin as [Hin|Hin].
      { injection Hin as _ Hin. symmetry in Hin.
        exact (year_range_not_dash (foldr Z.min (YEAR r) (YEAR <$> rs))
                 (foldr Z.max (YEAR r) (YEAR <$> rs)) Hin). }
      by apply elem_of_nil in Hin.
Qed.

(** The panel of the sample table: three crashes, four fatalities, from
    2015 to 2023 (with no filter selected no mean is taken); and a count of
    a million and a half as it is written. *)
Example metrics_panel_sample :
  drop 1 (fst (render_map_and_metrics (series_mean := Pandas.group_mean) sample_frame
                 {| selection := no_filter; overlay := false |}))
  = [ st_metric "Total Crashes" "3"; st_metric "Total Fatalities" "4";
      st_metric "Year Range" "2015–2023" ] /\
  format_thousands 1500000 = "1,500,000" /\
  format_thousands (- 1234) = "-1,234".
Proof. vm_compute. done. Qed.

End HeatmapFacts.
